(** * OctoPrint-PolarCloud: the cloud agent of [octoprint_polarcloud/__init__.py]

    A shallow embedding of the plugin's protocol core: the address check of
    inbound messages, the inbound handlers, the welcome/hello handshake, the
    upload-location cache, the print events and the status heartbeat.

    Python objects are finite maps from text keys to values, the plugin
    instance is a record of its attributes, and every method is a computation
    in a state-and-exception monad: an exception leaves the attributes as they
    were when it was raised, as in Python. *)

From Stdlib Require Import ZArith String Ascii List Bool Lia.
From stdpp Require Import gmap strings list fin_maps.

Open Scope Z_scope.
Open Scope string_scope.

Set Warnings "-register-all".

(** ** Python values *)

(** The values a decoded JSON payload holds, and the [datetime] the plugin
    writes into a stored response. Numbers are integers; a [datetime] is the
    count of microseconds since [datetime.min]. *)
Inductive value : Type :=
  | VNone
  | VBool (b : bool)
  | VInt (z : Z)
  | VStr (s : string)
  | VDatetime (t : Z)
  | VList (l : list value)
  | VDict (d : gmap string value).

Abbreviation dict := (gmap string value).

(** A text attribute that may still be [None] ([self._serial],
    [self._snapshot_url], the PEM text behind [self.key]). *)
Definition text := option string.

Definition value_of_text (o : text) : value :=
  match o with
  | Some s => VStr s
  | None => VNone
  end.

(** Truth value of a text attribute: [None] and the empty text are false. *)
Definition truthy (o : text) : bool :=
  match o with
  | Some s => negb (String.eqb s "")
  | None => false
  end.

(** [o == v] for a text attribute [o]. *)
Definition text_eq (o : text) (v : value) : bool :=
  match o, v with
  | None, VNone => true
  | Some s, VStr t => String.eqb s t
  | _, _ => false
  end.

(** [v == s] for a text literal [s]. *)
Definition eq_str (v : value) (s : string) : bool := text_eq (Some s) v.

(** [d.get(k, dflt)] *)
Definition dict_get (d : dict) (k : string) (dflt : value) : value :=
  default dflt (d !! k).

(** [has_all(dictionary, *keys)] *)
Fixpoint has_all (dictionary : dict) (keys : list string) : bool :=
  match keys with
  | [] => true
  | key :: keys' =>
      if bool_decide (is_Some (dictionary !! key))
      then has_all dictionary keys'
      else false
  end.

(** Keys of a Python dictionary: the hashable values, with [True == 1] and
    [False == 0] falling on the same key. *)
Inductive hkey : Type :=
  | KNone
  | KInt (z : Z)
  | KStr (s : string)
  | KDatetime (t : Z).

#[global] Instance hkey_eq_dec : EqDecision hkey.
Proof. solve_decision. Defined.

Definition hkey_encode (k : hkey) : unit + Z + string + Z :=
  match k with
  | KNone => inl (inl (inl tt))
  | KInt z => inl (inl (inr z))
  | KStr s => inl (inr s)
  | KDatetime t => inr t
  end.

Definition hkey_decode (x : unit + Z + string + Z) : hkey :=
  match x with
  | inl (inl (inl _)) => KNone
  | inl (inl (inr z)) => KInt z
  | inl (inr s) => KStr s
  | inr t => KDatetime t
  end.

#[global] Instance hkey_countable : Countable hkey.
Proof.
  apply (inj_countable' hkey_encode hkey_decode).
  by intros [].
Defined.

(** [hash(v)]: lists and dictionaries are unhashable. *)
Definition hash_key (v : value) : option hkey :=
  match v with
  | VNone => Some KNone
  | VBool b => Some (KInt (Z.b2z b))
  | VInt z => Some (KInt z)
  | VStr s => Some (KStr s)
  | VDatetime t => Some (KDatetime t)
  | VList _ | VDict _ => None
  end.

(** ** Exceptions *)

(** The exceptions of the model are instances of Python's [Exception]: the
    built-in ones the plugin's own statements raise, [Queue.Empty], and
    [Error name] for whatever a collaborator (transport, signer, HTTP client,
    printer) raises. *)
Inductive exn : Type :=
  | NameError
  | KeyError
  | TypeError
  | ValueError
  | OverflowError
  | AttributeError
  | Empty
  | Error (name : string).

#[global] Instance exn_eq_dec : EqDecision exn.
Proof. solve_decision. Defined.

(** ** The plugin instance and its host *)

(** What the heartbeat thread finds on [self._task_queue]: bound methods. *)
Inductive task : Type :=
  | T_hello
  | T_ensure_idle_upload_url
  | T_upload_snapshot.

(** Calls made on [self._printer]. *)
Inductive printer_call : Type :=
  | cancel_print
  | commands (c : value)
  | pause_print
  | resume_print
  | set_temperature (heater : string) (v : value).

Inductive level : Type := DEBUG | INFO | WARN | ERROR.

Record state : Type := mkState {
  (* attributes of the plugin instance *)
  _serial : text;
  _challenge : value;
  key : text;                          (* the private key, [None] when unavailable *)
  _snapshot_url : text;
  _task_queue : list task;
  _upload_location : gmap hkey dict;
  _update_interval : Z;
  _cloud_print : bool;
  _job_id : string;
  _pstate : string;
  _pstate_counter : Z;
  (* the host around it *)
  is_printing : bool;                  (* answer of [self._printer.is_printing()] *)
  now : Z;                             (* reading of [datetime.datetime.now()] *)
  emitted : list (string * dict);      (* messages handed to [self._socket.emit] *)
  printer_calls : list printer_call;   (* calls received by [self._printer] *)
  log : list (level * string)          (* calls on [self._logger]: level and format text *)
}.

Definition set_challenge (c : value) (s : state) : state :=
  mkState (_serial s) c (key s) (_snapshot_url s) (_task_queue s)
    (_upload_location s) (_update_interval s) (_cloud_print s) (_job_id s)
    (_pstate s) (_pstate_counter s) (is_printing s) (now s) (emitted s)
    (printer_calls s) (log s).

Definition set_task_queue (q : list task) (s : state) : state :=
  mkState (_serial s) (_challenge s) (key s) (_snapshot_url s) q
    (_upload_location s) (_update_interval s) (_cloud_print s) (_job_id s)
    (_pstate s) (_pstate_counter s) (is_printing s) (now s) (emitted s)
    (printer_calls s) (log s).

Definition set_upload_location (m : gmap hkey dict) (s : state) : state :=
  mkState (_serial s) (_challenge s) (key s) (_snapshot_url s) (_task_queue s)
    m (_update_interval s) (_cloud_print s) (_job_id s)
    (_pstate s) (_pstate_counter s) (is_printing s) (now s) (emitted s)
    (printer_calls s) (log s).

Definition set_update_interval (n : Z) (s : state) : state :=
  mkState (_serial s) (_challenge s) (key s) (_snapshot_url s) (_task_queue s)
    (_upload_location s) n (_cloud_print s) (_job_id s)
    (_pstate s) (_pstate_counter s) (is_printing s) (now s) (emitted s)
    (printer_calls s) (log s).

Definition set_pstate (v : string) (s : state) : state :=
  mkState (_serial s) (_challenge s) (key s) (_snapshot_url s) (_task_queue s)
    (_upload_location s) (_update_interval s) (_cloud_print s) (_job_id s)
    v (_pstate_counter s) (is_printing s) (now s) (emitted s)
    (printer_calls s) (log s).

Definition set_pstate_counter (n : Z) (s : state) : state :=
  mkState (_serial s) (_challenge s) (key s) (_snapshot_url s) (_task_queue s)
    (_upload_location s) (_update_interval s) (_cloud_print s) (_job_id s)
    (_pstate s) n (is_printing s) (now s) (emitted s)
    (printer_calls s) (log s).

Definition set_emitted (l : list (string * dict)) (s : state) : state :=
  mkState (_serial s) (_challenge s) (key s) (_snapshot_url s) (_task_queue s)
    (_upload_location s) (_update_interval s) (_cloud_print s) (_job_id s)
    (_pstate s) (_pstate_counter s) (is_printing s) (now s) l
    (printer_calls s) (log s).

Definition set_printer_calls (l : list printer_call) (s : state) : state :=
  mkState (_serial s) (_challenge s) (key s) (_snapshot_url s) (_task_queue s)
    (_upload_location s) (_update_interval s) (_cloud_print s) (_job_id s)
    (_pstate s) (_pstate_counter s) (is_printing s) (now s) (emitted s)
    l (log s).

Definition set_log (l : list (level * string)) (s : state) : state :=
  mkState (_serial s) (_challenge s) (key s) (_snapshot_url s) (_task_queue s)
    (_upload_location s) (_update_interval s) (_cloud_print s) (_job_id s)
    (_pstate s) (_pstate_counter s) (is_printing s) (now s) (emitted s)
    (printer_calls s) l.

(** [__init__], on a host that has emitted and logged nothing yet. *)
Definition __init__ (printing : bool) (clock : Z) : state :=
  mkState None VNone None None [] ∅ 60 false "123" "0" 0
    printing clock [] [] [].

(** ** Computations *)

Inductive result (A : Type) : Type :=
  | Ok (a : A) (s : state)
  | Raise (e : exn) (s : state).

Arguments Ok {A} a s.
Arguments Raise {A} e s.

(** The state a computation ends in, returned or raised. *)
Definition final {A} (r : result A) : state :=
  match r with
  | Ok _ s => s
  | Raise _ s => s
  end.

Definition M (A : Type) : Type := state -> result A.

Definition ret {A} (a : A) : M A := fun s => Ok a s.

Definition bind {A B} (m : M A) (k : A -> M B) : M B :=
  fun s =>
    match m s with
    | Ok a s' => k a s'
    | Raise e s' => Raise e s'
    end.

Definition raise {A} (e : exn) : M A := fun s => Raise e s.

Definition gets {A} (f : state -> A) : M A := fun s => Ok (f s) s.

Definition modify (f : state -> state) : M unit := fun s => Ok tt (f s).

(** Outcome of a call into a library: its value or the exception it raises. *)
Definition lift {A} (r : exn + A) : M A :=
  match r with
  | inl e => raise e
  | inr a => ret a
  end.

(** [try: m except e: handler] for one exception class [e]. *)
Definition try_except {A} (m : M A) (e : exn) (handler : M A) : M A :=
  fun s =>
    match m s with
    | Ok a s' => Ok a s'
    | Raise e' s' => if bool_decide (e' = e) then handler s' else Raise e' s'
    end.

(** [try: m except Exception: handler] *)
Definition try_except_Exception {A} (m : M A) (handler : exn -> M A) : M A :=
  fun s =>
    match m s with
    | Ok a s' => Ok a s'
    | Raise e s' => handler e s'
    end.

Notation "'let*' x := m 'in' k" := (bind m (fun x => k))
  (at level 10, x name, m at level 100, k at level 200).
Notation "m >> k" := (bind m (fun _ => k))
  (at level 100, k at level 200, right associativity).

(** [for x in xs: body x] *)
Fixpoint for_each {A} (xs : list A) (body : A -> M unit) : M unit :=
  match xs with
  | [] => ret tt
  | x :: xs' => body x >> for_each xs' body
  end.

(** The records, messages, calls and tasks a state gains. *)
Definition logged (lvl : level) (msg : string) (s : state) : state :=
  set_log (log s ++ [(lvl, msg)]) s.

Definition sent (event : string) (payload : dict) (s : state) : state :=
  set_emitted (emitted s ++ [(event, payload)]) s.

Definition called (c : printer_call) (s : state) : state :=
  set_printer_calls (printer_calls s ++ [c]) s.

Definition queued (t : task) (s : state) : state :=
  set_task_queue (_task_queue s ++ [t]) s.

Definition logger (lvl : level) (msg : string) : M unit :=
  modify (logged lvl msg).

(** [self._socket.emit(event, payload)], on a transport that takes every
    message it is handed: the call records the message and returns. What
    the plugin does when [emit] itself raises is outside this model. *)
Definition socket_emit (event : string) (payload : dict) : M unit :=
  modify (sent event payload).

Definition printer (c : printer_call) : M unit :=
  modify (called c).

(** [self._task_queue.put(t)] and [self._task_queue.get_nowait()] *)
Definition queue_put (t : task) : M unit :=
  modify (queued t).

Definition queue_get_nowait : M task :=
  fun s =>
    match _task_queue s with
    | [] => Raise Empty s
    | t :: q => Ok t (set_task_queue q s)
    end.

(** [d[k]] *)
Definition subscript (d : dict) (k : string) : M value :=
  match d !! k with
  | Some v => ret v
  | None => raise KeyError
  end.

(** Names bound at module level by the file's assignments, [import]
    statements, [def]s and [class]. Looking up any other name that is not a
    builtin raises [NameError]. *)
Definition module_globals : list string :=
  [ "absolute_import"; "__author__"; "__license__"; "__copyright__";
    "os"; "threading"; "logging"; "uuid"; "Queue"; "base64"; "datetime";
    "crypto"; "SocketIO"; "LoggingNamespace"; "TimeoutError";
    "ConnectionError"; "sarge"; "flask"; "requests"; "octoprint";
    "get_exception_string"; "Events"; "get_mac"; "get_ip"; "str_safe_get";
    "has_all"; "PolarcloudPlugin"; "__plugin_name__"; "__plugin_load__";
    "__plugin_implementation__"; "__plugin_hooks__" ].

Definition load_global (name : string) : M unit :=
  if bool_decide (name ∈ module_globals) then ret tt else raise NameError.

(** ** Builtins and library calls *)

(** Truth value of an arbitrary value. *)
Definition truthy_value (v : value) : bool :=
  match v with
  | VNone => false
  | VBool b => b
  | VInt z => negb (Z.eqb z 0)
  | VStr s => negb (String.eqb s "")
  | VDatetime _ => true
  | VList l => match l with [] => false | _ :: _ => true end
  | VDict d => match map_to_list d with [] => false | _ :: _ => true end
  end.

(** The collaborators the plugin calls and the model does not look into. *)
Record host : Type := mkHost {
  (* [crypto.sign(self.key, data, digest)]: the signature, or the exception
     of a missing key or unusable data *)
  crypto_sign : text -> value -> string -> exn + string;
  b64encode : string -> string;
  get_mac : string;
  get_ip : value;
  (* [int(s)] on a text: the integer it denotes, [None] for [ValueError] *)
  int_of_str : string -> option Z;
  (* [re.match(pattern, s)] of the [re] module, for a module that imports it *)
  re_match : string -> string -> exn + bool;
  (* [self._printer.get_current_temperatures()] *)
  get_current_temperatures : state -> exn + value;
  (* the dictionary [_current_status] builds from the temperatures, the
     printer's state and job data and the clock, or the exception of a
     printer state outside the table or of a value that does not format *)
  status_of : value -> state -> exn + dict;
  (* [self._socket.wait(seconds)]: runs whatever the transport delivers *)
  socket_wait : Z -> M unit;
  (* [requests.get(url, timeout=5)] followed by [raise_for_status()]:
     [inl e] when the request raises, else the body and the status check *)
  requests_get : text -> exn + (string * option exn);
  (* [requests.post(url, data, files)] followed by [raise_for_status()] *)
  requests_post : value -> value -> string -> exn + option exn
}.

(** [datetime.max], in microseconds since [datetime.min]. *)
Definition datetime_max : Z := 3652059 * 86400 * 1000000 - 1.

(** [datetime.timedelta(seconds=n)], in microseconds: the number of days
    is bounded. *)
Definition timedelta (seconds : Z) : exn + Z :=
  if Z.leb (Z.abs (seconds `div` 86400)) 999999999
  then inr (seconds * 1000000)
  else inl OverflowError.

(** [t + delta] on a [datetime]: the sum stays within [datetime.min] and
    [datetime.max]. *)
Definition datetime_add (t delta : Z) : exn + Z :=
  if Z.leb 0 (t + delta) && Z.leb (t + delta) datetime_max
  then inr (t + delta)
  else inl OverflowError.

(** [t > v] for a [datetime] [t]: only another [datetime] compares. *)
Definition datetime_gt (t : Z) (v : value) : exn + bool :=
  match v with
  | VDatetime e => inr (Z.ltb e t)
  | _ => inl TypeError
  end.

Section Plugin.

Context (h : host).

(** [int(v)] *)
Definition int (v : value) : exn + Z :=
  match v with
  | VInt z => inr z
  | VBool b => inr (Z.b2z b)
  | VStr s =>
      match int_of_str h s with
      | Some z => inr z
      | None => inl ValueError
      end
  | VNone | VDatetime _ | VList _ | VDict _ => inl TypeError
  end.

(** ** Utility functions *)

Definition _get_job_id : M string :=
  let* p := gets is_printing in
  if p then gets _job_id else ret "0".

Definition _valid_packet (data : dict) : M bool :=
  let* serial := gets _serial in
  if negb (truthy serial)
     || negb (text_eq serial (dict_get data "serialNumber" (VStr "")))
  then
    logger DEBUG "Serial number is '{}'" >>
    logger DEBUG "Ignoring message to '{}'" >>
    ret false
  else ret true.

(** ** getUrl and getUrlResponse *)

Definition _get_url (url_type : string) (job_id : string) : M unit :=
  logger DEBUG "getUrl" >>
  let* serial := gets _serial in
  socket_emit "getUrl"
    (list_to_map
       [ ("serialNumber", value_of_text serial);
         ("method", VStr "post");
         ("type", VStr url_type);
         ("jobId", VStr job_id) ]).

Definition _ensure_upload_url (upload_type : string) : M bool :=
  let* url := gets _snapshot_url in
  if negb (truthy url) then ret false
  else
    let* loc := gets _upload_location in
    let* stale :=
      match loc !! KStr upload_type with
      | None => ret true
      | Some d =>
          let* t := gets now in
          let* e := subscript d "expires" in
          lift (datetime_gt t e)
      end in
    if stale then
      let* job_id := _get_job_id in
      _get_url upload_type job_id >>
      ret false
    else ret true.

Definition _ensure_idle_upload_url : M unit :=
  _ensure_upload_url "idle" >> ret tt.

Definition dquote : string := String "034"%char EmptyString.

Definition _on_get_url_response (response : dict) : M unit :=
  let* ok := _valid_packet response in
  if negb ok then ret tt
  else
    logger DEBUG "getUrlResponse {}" >>
    if negb (has_all response ["status"]) then
      logger WARN "getUrlResponse lacks status property"
    else
      let* status := subscript response "status" in
      if negb (eq_str status "SUCCESS") then
        logger WARN "Failed to get upload url: {} {}"
      else
        (if negb (has_all response ["type"; "expires"; "url"; "maxSize"; "fields"])
         then logger WARN "getUrlResponse lacks a required property"
         else ret tt) >>
        let* t := gets now in
        let* seconds := lift (int (dict_get response "expires" (VInt 0))) in
        let* delta := lift (timedelta seconds) in
        let* expires := lift (datetime_add t delta) in
        let response := <["expires" := VDatetime expires]> response in
        match hash_key (dict_get response "type" (VStr "idle")) with
        | None => raise TypeError
        | Some k =>
            modify (fun s => set_upload_location (<[k := response]> (_upload_location s)) s) >>
            logger DEBUG ("response[" +:+ dquote +:+ "type" +:+ dquote +:+ "] = {}") >>
            if eq_str (dict_get response "type" (VStr "")) "idle"
            then queue_put T_upload_snapshot
            else ret tt
        end.

(** ** Snapshots *)

(** The two [try] blocks of [_upload_snapshot] share the locals [loc] and
    [r]; each is bound only if its assignment was reached before the first
    block was left. An unbound local raises [UnboundLocalError], a
    [NameError], inside the second block. *)
Definition _upload_snapshot : M unit :=
  logger DEBUG "_upload_snapshot" >>
  let* fresh := _ensure_upload_url "idle" in
  if negb fresh then ret tt
  else
    let* cache := gets _upload_location in
    let* locals :=
      match cache !! KStr "idle" with
      | None =>
          logger ERROR "Could not capture image from {}" >>
          ret (None, None)
      | Some loc =>
          let* url := gets _snapshot_url in
          match requests_get h url with
          | inl _ =>
              logger ERROR "Could not capture image from {}" >>
              ret (Some loc, None)
          | inr (content, Some _) =>
              logger ERROR "Could not capture image from {}" >>
              ret (Some loc, Some content)
          | inr (content, None) => ret (Some loc, Some content)
          end
      end in
    try_except_Exception
      (match locals with
       | (None, _) => raise NameError
       | (Some loc, r) =>
           let* url := subscript loc "url" in
           let* fields := subscript loc "fields" in
           match r with
           | None => raise NameError
           | Some content =>
               let* p := lift (requests_post h url fields content) in
               logger DEBUG "{}" >>
               match p with
               | Some e => raise e
               | None =>
                   logger DEBUG "{}: {}" >>
                   logger DEBUG "Image captured from {}"
               end
           end
       end)
      (fun _ => logger ERROR "Could not post snapshot to PolarCloud").

(** ** welcome and hello *)

Definition _hello : M unit :=
  logger DEBUG "hello" >>
  let* serial := gets _serial in
  let* challenge := gets _challenge in
  if truthy serial && truthy_value challenge then
    logger DEBUG "emit hello" >>
    let* k := gets key in
    let* signature := lift (crypto_sign h k challenge "sha256") in
    socket_emit "hello"
      (list_to_map
         [ ("serialNumber", value_of_text serial);
           ("signature", VStr (b64encode h signature));
           ("MAC", VStr (get_mac h));
           ("localIp", get_ip h);
           ("protocol", VStr "2") ]) >>
    queue_put T_ensure_idle_upload_url
  else
    logger DEBUG "skip emit hello, serial: {}".

(** [self._start_polar_status()] starts the heartbeat thread if there is
    none; the thread itself is [_polar_status_heartbeat] below. *)
Definition _on_welcome (welcome : dict) : M unit :=
  logger DEBUG "_on_welcome: {}" >>
  match welcome !! "challenge" with
  | Some c =>
      modify (set_challenge c) >>
      queue_put T_hello
  | None => ret tt
  end.

(** A queued task, called. *)
Definition run_task (t : task) : M unit :=
  match t with
  | T_hello => _hello
  | T_ensure_idle_upload_url => _ensure_idle_upload_url
  | T_upload_snapshot => _upload_snapshot
  end.

(** ** Inbound commands *)

Definition _on_cancel (data : dict) : M unit :=
  let* ok := _valid_packet data in
  if negb ok then ret tt else printer cancel_print.

Definition _on_command (data : dict) : M unit :=
  let* ok := _valid_packet data in
  if negb ok then ret tt
  else printer (commands (dict_get data "command" (VStr ""))).

Definition _on_pause (data : dict) : M unit :=
  let* ok := _valid_packet data in
  if negb ok then ret tt else printer pause_print.

Definition _on_print (data : dict) : M unit :=
  let* ok := _valid_packet data in
  if negb ok then ret tt else ret tt.

Definition _on_resume (data : dict) : M unit :=
  let* ok := _valid_packet data in
  if negb ok then ret tt else printer resume_print.

(** The body of [for key in data] in [_on_temperature]. The name [re] is
    looked up among the module's globals before [match] is reached. *)
Definition _on_temperature_key (data : dict) (key : string) : M unit :=
  load_global "re" >>
  let* m := lift (re_match h "(?bed)|(?tool[0-9]+)" key) in
  if m then
    let* v := subscript data "key" in
    logger DEBUG "set_temperature {} to {}" >>
    let* v := subscript data "key" in
    printer (set_temperature key v)
  else ret tt.

(** [_on_temperature], visiting the keys of [data] in the order [keys]. *)
Definition _on_temperature_in (keys : list string) (data : dict) : M unit :=
  let* ok := _valid_packet data in
  if negb ok then ret tt
  else for_each keys (_on_temperature_key data).

Definition _on_temperature (data : dict) : M unit :=
  _on_temperature_in (map fst (map_to_list data)) data.

Definition _on_update (data : dict) : M unit :=
  let* ok := _valid_packet data in
  if negb ok then ret tt else ret tt.

(** ** Print events *)

Inductive event : Type :=
  | PRINT_STARTED
  | PRINT_RESUMED
  | PRINT_CANCELLED
  | OtherEvent (name : string).

#[global] Instance event_eq_dec : EqDecision event.
Proof. solve_decision. Defined.

(** The [PSTATE_*] attributes the class declares. *)
Definition PSTATE : list (string * string) :=
  [ ("PSTATE_IDLE", "0"); ("PSTATE_SERIAL", "1"); ("PSTATE_PREPARING", "2");
    ("PSTATE_PRINTING", "3"); ("PSTATE_PAUSED", "4");
    ("PSTATE_POSTPROCESSING", "5"); ("PSTATE_CANCELING", "6");
    ("PSTATE_COMPLETE", "7"); ("PSTATE_UPDATING", "8");
    ("PSTATE_COLDPAUSED", "9"); ("PSTATE_CHANGINGFILAMENT", "10");
    ("PSTATE_TCPIP", "11"); ("PSTATE_ERROR", "12") ].

(** [self.PSTATE_x] *)
Definition class_attribute (name : string) : M string :=
  match (list_to_map PSTATE : gmap string string) !! name with
  | Some v => ret v
  | None => raise AttributeError
  end.

Definition on_event (event : event) (payload : value) : M unit :=
  (if bool_decide (event = PRINT_CANCELLED) then
     let* cloud := gets _cloud_print in
     if cloud then
       let* v := class_attribute "PSTATE_CANCELLING" in
       modify (set_pstate v) >>
       modify (set_pstate_counter 3)
     else ret tt
   else ret tt) >>
  if bool_decide (event = PRINT_STARTED) || bool_decide (event = PRINT_RESUMED)
  then modify (set_update_interval 10)
  else ret tt.

(** ** The heartbeat thread *)

(** [range(n)] *)
Definition range (n : Z) : list Z := map Z.of_nat (seq 0 (Z.to_nat n)).

(** [try: task = self._task_queue.get_nowait(); task() except Queue.Empty: pass] *)
Definition run_pending_task : M unit :=
  try_except (let* t := queue_get_nowait in run_task t) Empty (ret tt).

(** [_current_status]: the temperatures are read and logged before the
    status dictionary is put together. *)
Definition _current_status : M dict :=
  let* temps := (fun s => lift (get_current_temperatures h s) s) in
  logger DEBUG "{}" >>
  (fun s => lift (status_of h temps s) s).

(** First statement of the loop body: the status message and the reset of
    the interval. *)
Definition heartbeat_status : M unit :=
  let* serial := gets _serial in
  if truthy serial then
    let* status := _current_status in
    socket_emit "status" status >>
    let* cloud := gets _cloud_print in
    let* printing := gets is_printing in
    if negb cloud && negb printing
    then modify (set_update_interval 60)
    else ret tt
  else ret tt.

(** The statements inside [while True: try: ...]. *)
Definition heartbeat_body : M unit :=
  heartbeat_status >>
  let* n := gets _update_interval in
  for_each (range n) (fun _ => run_pending_task >> socket_wait h 1) >>
  let* serial := gets _serial in
  if truthy serial then _upload_snapshot else ret tt.

(** One turn of [while True]: the body under [except Exception]. *)
Definition heartbeat_iteration (body : M unit) : M unit :=
  try_except_Exception body
    (fun _ => logger WARN "polar_status exception: {}").

(** What has become of the thread: still in its loop, or ended by an
    exception nothing caught. *)
Inductive thread : Type :=
  | Running (s : state)
  | Died (e : exn) (s : state).

(** [fuel] turns of [while True]. *)
Fixpoint while_True (fuel : nat) (iteration : M unit) (s : state) : thread :=
  match fuel with
  | O => Running s
  | S fuel' =>
      match iteration s with
      | Ok _ s' => while_True fuel' iteration s'
      | Raise e s' => Died e s'
      end
  end.

Definition _polar_status_heartbeat (fuel : nat) (s : state) : thread :=
  match (run_pending_task >> socket_wait h 5) s with
  | Ok _ s' => while_True fuel (heartbeat_iteration heartbeat_body) s'
  | Raise e s' => Died e s'
  end.

End Plugin.

(** The handlers [_create_socket] registers for the inbound commands. *)
Definition command_handlers (h : host) : list (string * (dict -> M unit)) :=
  [ ("cancel", _on_cancel);
    ("command", _on_command);
    ("pause", _on_pause);
    ("print", _on_print);
    ("resume", _on_resume);
    ("temperature", _on_temperature h);
    ("update", _on_update) ].

(** ** States, messages and hosts the properties speak of *)

(** A property of the state that a computation maintains, whether it
    returns or raises. *)
Definition preserves {B} (I : state -> Prop) (m : M B) : Prop :=
  forall s, I s -> I (final (m s)).

(** Every cached descriptor carries a [datetime] under [expires]. *)
Definition cache_wf (s : state) : Prop :=
  forall k d, _upload_location s !! k = Some d ->
    exists e, d !! "expires" = Some (VDatetime e).

(** The state a rejected message leaves: the two debug records of
    [_valid_packet], nothing else. *)
Definition rejected (s : state) : state :=
  logged DEBUG "Ignoring message to '{}'"
    (logged DEBUG "Serial number is '{}'" s).

(** The local serial is set and the message names exactly it. *)
Definition addressed (s : state) (data : dict) : Prop :=
  exists sn : string,
    _serial s = Some sn /\ sn <> "" /\ data !! "serialNumber" = Some (VStr sn).

#[global] Instance addressed_dec s data : Decision (addressed s data).
Proof.
  unfold addressed.
  destruct (_serial s) as [sn|].
  - destruct (decide (sn = "")) as [->|Hne].
    + right. intros (sn' & [= <-] & Hne & _). by apply Hne.
    + destruct (data !! "serialNumber") as [[| | |t| | |]|] eqn:Hd;
        try (right; intros (sn' & _ & _ & [=]); fail).
      destruct (decide (t = sn)) as [->|Hts].
      * left. by exists sn.
      * right. intros (sn' & [= <-] & _ & [= ->]). by apply Hts.
  - right. by intros (sn & [=] & _).
Defined.

Definition test_host : host :=
  mkHost
    (fun k data digest =>
       match k with
       | Some pem => inr ("sig:" +:+ pem)
       | None => inl (Error "crypto.Error")
       end)
    (fun b => "b64:" +:+ b)
    "00:1A:2B:3C:4D:5E"
    (VStr "192.168.1.10")
    (fun _ => None)
    (fun _ _ => inr false)
    (fun _ => inr (VDict ∅))
    (fun _ _ => inr ∅)
    (fun _ => ret tt)
    (fun _ => inr ("jpeg", None))
    (fun _ _ _ => inr None).

Definition registered : state :=
  mkState (Some "PC123") (VStr "abc") (Some "PEM") (Some "http://cam/snap")
    [] ∅ 60 false "123" "0" 0 false 1000000 [] [] [].

Definition to_other : dict := {[ "serialNumber" := VStr "PC999" ]}.

(** The same state before any [welcome] has arrived. *)
Definition unchallenged : state :=
  mkState (Some "PC123") VNone (Some "PEM") (Some "http://cam/snap")
    [] ∅ 60 false "123" "0" 0 false 1000000 [] [] [].

(** The [getUrl] request [_get_url] sends for a purpose from state [s]. *)
Definition getUrl_sent (upload_type : string) (s : state) : state :=
  sent "getUrl"
    (list_to_map
       [ ("serialNumber", value_of_text (_serial s));
         ("method", VStr "post");
         ("type", VStr upload_type);
         ("jobId", VStr (if is_printing s then _job_id s else "0")) ])
    (logged DEBUG "getUrl" s).

(** A descriptor whose expiry is the current instant. *)
Definition at_expiry : state :=
  mkState (Some "PC123") (VStr "abc") (Some "PEM") (Some "http://cam/snap")
    [] {[ KStr "idle" := {[ "expires" := VDatetime 1000000 ]} ]}
    60 false "123" "0" 0 false 1000000 [] [] [].

(** No snapshot URL configured, nothing cached. *)
Definition no_camera : state :=
  mkState (Some "PC123") (VStr "abc") (Some "PEM") None
    [] ∅ 60 false "123" "0" 0 false 1000000 [] [] [].

(** The state [_on_get_url_response] leaves when it records [response]
    under key [k] with expiry [expires]. *)
Definition recorded (response : dict) (expires : Z) (k : hkey) (s : state) : state :=
  let stored := <["expires" := VDatetime expires]> response in
  let s1 := logged DEBUG "getUrlResponse {}" s in
  let s2 :=
    if has_all response ["type"; "expires"; "url"; "maxSize"; "fields"]
    then s1
    else logged WARN "getUrlResponse lacks a required property" s1 in
  let s3 :=
    logged DEBUG ("response[" +:+ dquote +:+ "type" +:+ dquote +:+ "] = {}")
      (set_upload_location (<[k := stored]> (_upload_location s2)) s2) in
  if eq_str (dict_get response "type" (VStr "")) "idle"
  then queued T_upload_snapshot s3
  else s3.

(** A complete response for the idle purpose, valid for a minute. *)
Definition idle_response : dict :=
  list_to_map
    [ ("serialNumber", VStr "PC123"); ("status", VStr "SUCCESS");
      ("type", VStr "idle"); ("expires", VInt 60);
      ("url", VStr "https://x"); ("maxSize", VInt 1000000);
      ("fields", VDict ∅) ].

Definition untyped_response : dict :=
  list_to_map
    [ ("serialNumber", VStr "PC123"); ("status", VStr "SUCCESS");
      ("expires", VInt 60); ("url", VStr "https://x");
      ("maxSize", VInt 1000000); ("fields", VDict ∅) ].

(** A successful response for the idle purpose without [url], [maxSize]
    and [fields]. *)
Definition incomplete_response : dict :=
  list_to_map
    [ ("serialNumber", VStr "PC123"); ("status", VStr "SUCCESS");
      ("type", VStr "idle"); ("expires", VInt 60) ].

(** [temperature{serialNumber: <mine>, bed: 60}] *)
Definition bed_60 : dict :=
  list_to_map [ ("serialNumber", VStr "PC123"); ("bed", VInt 60) ].

(** A registered device on the fast interval, its print over. *)
Definition after_print : state :=
  mkState (Some "PC123") (VStr "abc") (Some "PEM") (Some "http://cam/snap")
    [] ∅ 10 false "123" "0" 0 false 1000000 [] [] [].

(** A device still waiting for its registration, on the fast interval. *)
Definition unregistered_after_print : state :=
  mkState None VNone (Some "PEM") (Some "http://cam/snap")
    [] ∅ 10 false "123" "0" 0 false 1000000 [] [] [].

(** A registered device whose key could not be loaded, its hello task
    queued. *)
Definition keyless : state :=
  mkState (Some "PC123") (VStr "abc") None (Some "http://cam/snap")
    [T_hello] ∅ 60 false "123" "0" 0 false 1000000 [] [] [].

(** A host whose status builder fails, as when the printer reports a state
    the plugin's table does not list. *)
Definition failing_host : host :=
  mkHost (crypto_sign test_host) (b64encode test_host) (get_mac test_host)
    (get_ip test_host) (int_of_str test_host) (re_match test_host)
    (get_current_temperatures test_host) (fun _ _ => inl KeyError)
    (socket_wait test_host) (requests_get test_host) (requests_post test_host).

(** ** Module-level helpers and the remaining methods *)

(** [str_safe_get(dictionary, *keys)]: [reduce] over the keys, with
    [d.get(k)] on a dictionary and the empty text on anything else. *)
Definition str_safe_get (dictionary : value) (keys : list string) : value :=
  fold_left
    (fun d k =>
       match d with
       | VDict m => default VNone (m !! k)
       | _ => VStr ""
       end)
    keys dictionary.

Module Util.

(** One digit of ['%X']. *)
Definition hex_digit (d : N) : ascii :=
  default "0"%char (list_ascii_of_string "0123456789ABCDEF" !! N.to_nat d).

(** The [k] lowest hexadecimal digits of [n], highest first. *)
Fixpoint hex_digits (k : nat) (n : N) : list ascii :=
  match k with
  | O => []
  | S k' => hex_digits k' (n / 16) ++ [hex_digit (n mod 16)]
  end.

(** ['%012X' % n] for [n >= 0]: all the digits of [n], padded with zeros on
    the left to twelve. *)
Definition format_012X (n : N) : list ascii :=
  hex_digits (Nat.max 12 (N.to_nat ((N.size n + 3) / 4))) n.

(** [s[i:i+2]] *)
Definition slice2 (s : list ascii) (i : nat) : list ascii := take 2 (drop i s).

(** [sep.join(parts)] *)
Fixpoint join (sep : list ascii) (parts : list (list ascii)) : list ascii :=
  match parts with
  | [] => []
  | [p] => p
  | p :: parts' => p ++ sep ++ join sep parts'
  end.

(** [get_mac()], for the value [node] of [uuid.getnode()]. *)
Definition get_mac (node : N) : string :=
  string_of_list_ascii
    (join [":"%char]
       (map (slice2 (format_012X node)) [0; 2; 4; 6; 8; 10]%nat)).

End Util.

(** [self.PSTATE_x] for the attributes the class declares. *)
Definition pstate (name : string) : string :=
  default "" ((list_to_map PSTATE : gmap string string) !! name).

(** The table of [_polar_status_from_state]. *)
Definition state_mapping : gmap string string :=
  list_to_map
    [ ("OPEN_SERIAL", pstate "PSTATE_ERROR");
      ("DETECT_SERIAL", pstate "PSTATE_ERROR");
      ("DETECT_BAUDRATE", pstate "PSTATE_ERROR");
      ("CONNECTING", pstate "PSTATE_ERROR");
      ("OPERATIONAL", pstate "PSTATE_IDLE");
      ("PRINTING", pstate "PSTATE_SERIAL");
      ("PAUSED", pstate "PSTATE_PAUSED");
      ("CLOSED", pstate "PSTATE_ERROR");
      ("ERROR", pstate "PSTATE_ERROR");
      ("CLOSED_WITH_ERROR", pstate "PSTATE_ERROR");
      ("TRANSFERING_FILE", pstate "PSTATE_SERIAL");
      ("OFFLINE", pstate "PSTATE_ERROR");
      ("UNKNOWN", pstate "PSTATE_ERROR");
      ("NONE", pstate "PSTATE_ERROR") ].

(** [_polar_status_from_state], for the answer [state_id] of
    [self._printer.get_state_id()]. *)
Definition _polar_status_from_state (state_id : string) : exn + string :=
  match state_mapping !! state_id with
  | Some v => inr v
  | None => inl KeyError
  end.

Definition _job (job_id state : value) : M unit :=
  logger DEBUG "job" >>
  let* serial := gets _serial in
  if truthy serial then
    let* serial := gets _serial in
    socket_emit "job"
      (list_to_map
         [ ("serialNumber", value_of_text serial);
           ("jobId", job_id);
           ("state", state) ])
  else ret tt.

(** [_set_version], for the value [octoprint_version] of
    [get_versions()["version"]]. *)
Definition _set_version (octoprint_version : value) : M unit :=
  logger DEBUG "setVersion" >>
  let* serial := gets _serial in
  if truthy serial then
    let* serial := gets _serial in
    socket_emit "setVersion"
      (list_to_map
         [ ("serialNumber", value_of_text serial);
           ("runningVersion", octoprint_version);
           ("latestVersion", octoprint_version) ])
  else ret tt.

Section Api.

(** [self._register(email, pin)]: it reaches for the key file and the
    transport, and answers whether the [register] message went out. *)
Context (_register : value -> value -> M bool).

(** [on_api_command], returning the dictionary it hands to [flask.jsonify]. *)
Definition on_api_command (command : string) (data : dict) : M dict :=
  logger INFO "on_api_command {}" >>
  if String.eqb command "register"
     && bool_decide (is_Some (data !! "email"))
     && bool_decide (is_Some (data !! "pin"))
  then
    let* email := subscript data "email" in
    let* pin := subscript data "pin" in
    let* ok := _register email pin in
    if ok then
      ret (list_to_map
             [ ("status", VStr "WAIT");
               ("message", VStr "Waiting for response from Polar Cloud") ])
    else
      ret (list_to_map
             [ ("status", VStr "FAIL");
               ("message", VStr "Unable to communicate with Polar Cloud") ])
  else
    ret (list_to_map
           [ ("status", VStr "FAIL");
             ("message", VStr "Unable to understand command") ]).

End Api.



(** The interval is one of the two the plugin assigns. *)
Definition interval_ok (s : state) : Prop :=
  _update_interval s = 10 \/ _update_interval s = 60.

(** ** Further states and messages *)

(** [command{serialNumber: <mine>}], the command itself left out. *)
Definition bare_command : dict := {[ "serialNumber" := VStr "PC123" ]}.

(** A registered device in the middle of a cloud print. *)
Definition cloud_printing : state :=
  mkState (Some "PC123") (VStr "abc") (Some "PEM") (Some "http://cam/snap")
    [] ∅ 10 true "123" "3" 0 true 1000000 [] [] [].

(** A response whose [expires] is no number. *)
Definition bad_expires_response : dict :=
  list_to_map
    [ ("serialNumber", VStr "PC123"); ("status", VStr "SUCCESS");
      ("type", VStr "idle"); ("expires", VNone);
      ("url", VStr "https://x"); ("maxSize", VInt 1000000);
      ("fields", VDict ∅) ].

(** A response without [type] whose [expires] is no number either. *)
Definition untyped_bad_expires_response : dict :=
  list_to_map
    [ ("serialNumber", VStr "PC123"); ("status", VStr "SUCCESS");
      ("expires", VNone); ("url", VStr "https://x");
      ("maxSize", VInt 1000000); ("fields", VDict ∅) ].

(** A refusal. *)
Definition refused_response : dict :=
  list_to_map
    [ ("serialNumber", VStr "PC123"); ("status", VStr "FAIL");
      ("message", VStr "no such printer") ].


(** The queue is [q]. *)
Definition queue_is (q : list task) (s : state) : Prop := _task_queue s = q.

(** Three tasks waiting, the hello first. *)
Definition three_queued : state :=
  mkState (Some "PC123") (VStr "abc") (Some "PEM") None
    [T_hello; T_upload_snapshot; T_ensure_idle_upload_url] ∅
    60 false "123" "0" 0 false 1000000 [] [] [].

Definition welcome_abc : dict := {[ "challenge" := VStr "abc" ]}.

(** The emitted messages are [l]. *)
Definition emitted_is (l : list (string * dict)) (s : state) : Prop :=
  emitted s = l.

(** From [s], the computation emits nothing, or one message that names the
    local serial. *)
Definition emits_at_most_one {B} (m : M B) (s : state) : Prop :=
  emitted (final (m s)) = emitted s
  \/ exists ev payload,
       emitted (final (m s)) = (emitted s ++ [(ev, payload)])%list
       /\ payload !! "serialNumber" = Some (value_of_text (_serial s)).

(** The interval is [n]; the serial is [sn]. *)
Definition interval_is (n : Z) (s : state) : Prop := _update_interval s = n.
Definition serial_is (sn : text) (s : state) : Prop := _serial s = sn.

(** The state a thread is in, running or ended. *)
Definition thread_state (t : thread) : state :=
  match t with
  | Running s => s
  | Died _ s => s
  end.

(** A [_register] that cannot reach the cloud, and one that can. *)
Definition register_offline : value -> value -> M bool :=
  fun _ _ => logger INFO "Can't register because unable to communicate with Polar Cloud" >> ret false.

Definition register_form : dict :=
  list_to_map [ ("email", VStr "me@example.org"); ("pin", VStr "1234") ].

(** * Properties *)

(** Unfolding of the monad's operations and of the state updates. *)
Ltac run :=
  cbv beta iota zeta delta
    [ bind gets logger modify ret raise lift socket_emit queue_put printer
      queue_get_nowait subscript try_except try_except_Exception final
      logged sent queued called set_log set_emitted set_task_queue
      set_printer_calls set_upload_location set_update_interval
      set_challenge set_pstate set_pstate_counter ];
  cbn [ _serial _challenge key _snapshot_url _task_queue _upload_location
        _update_interval _cloud_print _job_id _pstate _pstate_counter
        is_printing now emitted printer_calls log negb andb orb ].

(** ** The address check *)

Lemma truthy_Some (o : text) :
  truthy o = true <-> exists sn, o = Some sn /\ sn <> "".
Proof.
  destruct o as [sn|]; simpl.
  - rewrite negb_true_iff. split.
    + intros Hf. exists sn. split; [done|]. intros ->. by rewrite String.eqb_refl in Hf.
    + intros (sn' & [= <-] & Hne). by apply String.eqb_neq.
  - split; [done|]. by intros (sn & [=] & _).
Qed.

Lemma addressed_test (s : state) (data : dict) :
  addressed s data <->
  negb (truthy (_serial s))
  || negb (text_eq (_serial s) (dict_get data "serialNumber" (VStr ""))) = false.
Proof.
  rewrite orb_false_iff, !negb_false_iff, truthy_Some.
  unfold addressed, dict_get. split.
  - intros (sn & Hs & Hne & Hd). rewrite Hs, Hd. simpl.
    split; [by exists sn | apply String.eqb_refl].
  - intros [(sn & Hs & Hne) Heq]. exists sn. rewrite Hs in Heq |- *.
    split; [done|]. split; [done|].
    destruct (data !! "serialNumber") as [v|]; simpl in Heq.
    + destruct v; try discriminate. apply String.eqb_eq in Heq. by subst.
    + apply String.eqb_eq in Heq. by subst.
Qed.

Lemma _valid_packet_run (s : state) (data : dict) :
  _valid_packet data s =
  if decide (addressed s data) then Ok true s else Ok false (rejected s).
Proof.
  unfold _valid_packet, bind, gets.
  destruct (decide (addressed s data)) as [Ha|Hn].
  - apply addressed_test in Ha. by rewrite Ha.
  - destruct (negb (truthy (_serial s))
              || negb (text_eq (_serial s)
                         (dict_get data "serialNumber" (VStr "")))) eqn:Ht.
    + reflexivity.
    + by apply addressed_test in Ht.
Qed.

Lemma rejecting_handler (check : M bool) (k : M unit) (s s' : state) :
  check s = Ok false s' ->
  (let* ok := check in if negb ok then ret tt else k) s = Ok tt s'.
Proof. intros Hc. unfold bind. by rewrite Hc. Qed.

(** C1. [_valid_packet] answers true exactly when the local serial is set
    (not [None], not empty) and the message's [serialNumber] is that very
    text; it never raises; and each of the seven command handlers (cancel,
    command, pause, print, resume, temperature, update) runs the check first
    and, when it answers false, returns in the state the check left, with no
    printer call, no message and no queued task. *)
Theorem valid_packet_gate (h : host) (s : state) (data : dict) :
  ((exists s', _valid_packet data s = Ok true s') <-> addressed s data)
  /\ (exists b s', _valid_packet data s = Ok b s')
  /\ (forall s', _valid_packet data s = Ok false s' ->
      s' = rejected s
      /\ forall name handler, (name, handler) ∈ command_handlers h ->
           handler data s = Ok tt s').
Proof.
  rewrite _valid_packet_run.
  destruct (decide (addressed s data)) as [Ha|Hn].
  - split; [split; eauto|]. split; [eauto|]. intros s' [=].
  - split.
    { split; [by intros (s' & [=]) | done]. }
    split; [eauto|].
    intros s' [= <-]. split; [done|].
    intros name handler Hin.
    assert (Hc : _valid_packet data s = Ok false (rejected s)).
    { rewrite _valid_packet_run. by destruct (decide (addressed s data)). }
    unfold command_handlers in Hin.
    repeat (apply elem_of_cons in Hin as [[= -> ->]|Hin];
            [by apply rejecting_handler|]).
    by apply elem_of_nil in Hin.
Qed.

(** The comparison is exact: no case folding, no trimming, and a message
    without [serialNumber] is nobody's. *)
Example valid_packet_is_exact :
  _valid_packet {[ "serialNumber" := VStr "PC123" ]} registered = Ok true registered
  /\ _valid_packet {[ "serialNumber" := VStr "pc123" ]} registered = Ok false (rejected registered)
  /\ _valid_packet {[ "serialNumber" := VStr "PC123 " ]} registered = Ok false (rejected registered)
  /\ _valid_packet ∅ registered = Ok false (rejected registered)
  /\ _valid_packet {[ "serialNumber" := VNone ]} (__init__ false 0) =
     Ok false (rejected (__init__ false 0)).
Proof. repeat split; reflexivity. Qed.

Lemma valid_packet_gate_witness :
  _on_cancel to_other registered = Ok tt (rejected registered).
Proof.
  destruct (valid_packet_gate test_host registered to_other) as (_ & _ & H).
  destruct (H (rejected registered)) as [_ H'].
  - reflexivity.
  - apply (H' "cancel"). apply list_elem_of_here.
Defined.

(** ** The hello task *)

(** C2, as the code has it. The hello task tests the serial number and
    the challenge for presence (Python's truth value: neither [None] nor
    empty). When both are present and the signer returns a signature of the
    stored challenge under the device key, the task emits one [hello]
    message with the serial number, the base64 signature, the MAC, the local
    address and protocol ["2"], and queues one ensure-idle-upload-URL task.
    When both are present and the signer raises, the task raises that
    exception, having only logged. When either is missing it returns having
    only logged. So a message or a queued task implies that both were
    present and that the signer returned. *)
Theorem hello_iff_serial_and_challenge (h : host) (s : state) :
  let present := truthy (_serial s) && truthy_value (_challenge s) in
  (present = true ->
   forall signature,
     crypto_sign h (key s) (_challenge s) "sha256" = inr signature ->
     _hello h s =
     Ok tt
       (queued T_ensure_idle_upload_url
          (sent "hello"
             (list_to_map
                [ ("serialNumber", value_of_text (_serial s));
                  ("signature", VStr (b64encode h signature));
                  ("MAC", VStr (get_mac h));
                  ("localIp", get_ip h);
                  ("protocol", VStr "2") ])
             (logged DEBUG "emit hello" (logged DEBUG "hello" s)))))
  /\ (present = true ->
      forall e,
        crypto_sign h (key s) (_challenge s) "sha256" = inl e ->
        _hello h s =
        Raise e (logged DEBUG "emit hello" (logged DEBUG "hello" s)))
  /\ (present = false ->
      _hello h s =
      Ok tt (logged DEBUG "skip emit hello, serial: {}" (logged DEBUG "hello" s)))
  /\ (emitted (final (_hello h s)) <> emitted s
      \/ _task_queue (final (_hello h s)) <> _task_queue s ->
      present = true
      /\ exists signature,
           crypto_sign h (key s) (_challenge s) "sha256" = inr signature).
Proof.
  intros present. subst present.
  unfold _hello. run.
  destruct (truthy (_serial s) && truthy_value (_challenge s)) eqn:Hp; run.
  - destruct (crypto_sign h (key s) (_challenge s) "sha256") as [e|sig]; run.
    + split; [intros _ signature [=]|]. split; [by intros _ e' [= <-]|].
      split; [discriminate|]. intros [Hne|Hne]; by destruct Hne.
    + split; [by intros _ signature [= <-]|]. split; [intros _ e [=]|].
      split; [discriminate|]. intros _. split; [done|by exists sig].
  - split; [discriminate|]. split; [discriminate|]. split; [done|].
    intros [Hne|Hne]; by destruct Hne.
Qed.

Lemma hello_iff_serial_and_challenge_witness :
  emitted (final (_hello test_host registered)) =
  [ ("hello",
     list_to_map
       [ ("serialNumber", VStr "PC123");
         ("signature", VStr "b64:sig:PEM");
         ("MAC", VStr "00:1A:2B:3C:4D:5E");
         ("localIp", VStr "192.168.1.10");
         ("protocol", VStr "2") ]) ]
  /\ _task_queue (final (_hello test_host registered)) = [T_ensure_idle_upload_url].
Proof.
  destruct (hello_iff_serial_and_challenge test_host registered) as (H & _).
  rewrite (H eq_refl "sig:PEM" eq_refl). split; reflexivity.
Defined.

(** C2, as stated, fails: on a device whose key could not be loaded the
    serial number and the challenge are both present, and the hello task
    raises the signer's exception with no message emitted and no follow-up
    queued. *)
Lemma hello_without_key :
  truthy (_serial keyless) = true
  /\ truthy_value (_challenge keyless) = true
  /\ exists s',
       _hello test_host keyless = Raise (Error "crypto.Error") s'
       /\ emitted s' = emitted keyless
       /\ _task_queue s' = _task_queue keyless.
Proof.
  split; [reflexivity|]. split; [reflexivity|].
  eexists. split; [reflexivity|]. split; reflexivity.
Qed.

Example hello_without_challenge :
  emitted (final (_hello test_host unchallenged)) = []
  /\ _task_queue (final (_hello test_host unchallenged)) = [].
Proof. split; reflexivity. Qed.

(** ** The stored challenge *)

Section Invariant.

Context (I : state -> Prop).

Lemma preserves_ret {B} (b : B) : preserves I (ret b).
Proof. by intros s. Qed.

Lemma preserves_raise {B} (e : exn) : preserves I (raise e : M B).
Proof. by intros s. Qed.

Lemma preserves_gets {B} (g : state -> B) : preserves I (gets g).
Proof. by intros s. Qed.

Lemma preserves_lift {B} (r : exn + B) : preserves I (lift r).
Proof. by destruct r; intros s. Qed.

Lemma preserves_modify (g : state -> state) :
  (forall s, I s -> I (g s)) -> preserves I (modify g).
Proof. intros Hg s. apply Hg. Qed.

Lemma preserves_bind {B C} (m : M B) (k : B -> M C) :
  preserves I m -> (forall b, preserves I (k b)) -> preserves I (bind m k).
Proof.
  intros Hm Hk s Hs. unfold bind. specialize (Hm s Hs).
  destruct (m s) as [b s'|e s']; cbn in Hm |- *; [|done].
  by apply Hk.
Qed.

Lemma preserves_try_except {B} (m : M B) (e : exn) (handler : M B) :
  preserves I m -> preserves I handler -> preserves I (try_except m e handler).
Proof.
  intros Hm Hh s Hs. unfold try_except. specialize (Hm s Hs).
  destruct (m s) as [b s'|e' s']; cbn in Hm |- *; [done|].
  case_bool_decide; [by apply Hh | done].
Qed.

Lemma preserves_try_except_Exception {B} (m : M B) (handler : exn -> M B) :
  preserves I m -> (forall e, preserves I (handler e)) ->
  preserves I (try_except_Exception m handler).
Proof.
  intros Hm Hh s Hs. unfold try_except_Exception. specialize (Hm s Hs).
  destruct (m s) as [b s'|e' s']; cbn in Hm |- *; [done|].
  by apply Hh.
Qed.

Lemma preserves_for_each {B} (xs : list B) (body : B -> M unit) :
  (forall x, preserves I (body x)) -> preserves I (for_each xs body).
Proof.
  intros Hb. induction xs as [|x xs IH]; cbn [for_each].
  - apply preserves_ret.
  - apply preserves_bind; [apply Hb | by intros _].
Qed.

(** Properties that depend on neither the log, the emitted messages, the
    printer calls nor the task queue. *)
Hypothesis I_log : forall l s, I s -> I (set_log l s).
Hypothesis I_emitted : forall l s, I s -> I (set_emitted l s).
Hypothesis I_calls : forall l s, I s -> I (set_printer_calls l s).
Hypothesis I_queue : forall q s, I s -> I (set_task_queue q s).

Lemma preserves_logger lvl msg : preserves I (logger lvl msg).
Proof. apply preserves_modify. intros s. apply I_log. Qed.

Lemma preserves_socket_emit ev payload : preserves I (socket_emit ev payload).
Proof. apply preserves_modify. intros s. apply I_emitted. Qed.

Lemma preserves_printer c : preserves I (printer c).
Proof. apply preserves_modify. intros s. apply I_calls. Qed.

Lemma preserves_queue_put t : preserves I (queue_put t).
Proof. apply preserves_modify. intros s. apply I_queue. Qed.

Lemma preserves_queue_get_nowait : preserves I queue_get_nowait.
Proof.
  intros s Hs. unfold queue_get_nowait.
  destruct (_task_queue s); [done|]. by apply I_queue.
Qed.

Lemma preserves_subscript d k : preserves I (subscript d k).
Proof.
  unfold subscript.
  destruct (d !! k); [apply preserves_ret | apply preserves_raise].
Qed.

Lemma preserves_load_global name : preserves I (load_global name).
Proof.
  unfold load_global.
  case_bool_decide; [apply preserves_ret | apply preserves_raise].
Qed.

End Invariant.

(** One step of an invariant proof: the computation's outermost construct.
    What is left are the assignments to attributes, [modify]. *)
Ltac preserves_step :=
  lazymatch goal with
  | |- preserves _ (bind _ _) => apply preserves_bind; [|intros ?]
  | |- preserves _ (ret _) => apply preserves_ret
  | |- preserves _ (raise _) => apply preserves_raise
  | |- preserves _ (gets _) => apply preserves_gets
  | |- preserves _ (lift _) => apply preserves_lift
  | |- preserves _ (logger _ _) => apply preserves_logger
  | |- preserves _ (socket_emit _ _) => apply preserves_socket_emit
  | |- preserves _ (printer _) => apply preserves_printer
  | |- preserves _ (queue_put _) => apply preserves_queue_put
  | |- preserves _ queue_get_nowait => apply preserves_queue_get_nowait
  | |- preserves _ (subscript _ _) => apply preserves_subscript
  | |- preserves _ (load_global _) => apply preserves_load_global
  | |- preserves _ (for_each _ _) => apply preserves_for_each; intros ?
  | |- preserves _ (try_except _ _ _) => apply preserves_try_except
  | |- preserves _ (try_except_Exception _ _) =>
      apply preserves_try_except_Exception; [|intros ?]
  | |- preserves _ (if ?b then _ else _) => destruct b
  | |- preserves _ (match ?x with _ => _ end) => destruct x
  end.

Ltac preserves_all := repeat (preserves_step; try done).

(** The challenge is [c]. *)
Definition challenge_is (c : value) (s : state) : Prop := _challenge s = c.

Lemma tasks_keep_challenge (h : host) (c : value) (t : task) :
  preserves (challenge_is c) (run_task h t).
Proof.
  destruct t; cbn [run_task].
  - unfold _hello. preserves_all.
  - unfold _ensure_idle_upload_url, _ensure_upload_url, _get_url, _get_job_id.
    preserves_all.
  - unfold _upload_snapshot, _ensure_upload_url, _get_url, _get_job_id.
    preserves_all.
Qed.

Lemma valid_packet_keeps_challenge (c : value) (data : dict) :
  preserves (challenge_is c) (_valid_packet data).
Proof. unfold _valid_packet. preserves_all. Qed.

Lemma handlers_keep_challenge (h : host) (c : value) (name : string)
    (handler : dict -> M unit) (data : dict) :
  (name, handler) ∈ command_handlers h ->
  preserves (challenge_is c) (handler data).
Proof.
  intros Hin. pose proof (valid_packet_keeps_challenge c data) as Hv.
  unfold command_handlers in Hin.
  repeat (apply elem_of_cons in Hin as [[= -> ->]|Hin];
          [apply preserves_bind; [exact Hv|intros ?]; preserves_all|]).
  - unfold _on_temperature_key. preserves_all.
  - by apply elem_of_nil in Hin.
Qed.

Lemma get_url_response_keeps_challenge (h : host) (c : value) (response : dict) :
  preserves (challenge_is c) (_on_get_url_response h response).
Proof.
  unfold _on_get_url_response.
  apply preserves_bind; [apply valid_packet_keeps_challenge|intros ?].
  preserves_all. by apply preserves_modify.
Qed.

(** C9, as the code has it. The hello task leaves the stored challenge as
    it found it, whether it emits, skips or raises; and so do the other
    queued tasks, the seven command handlers and the [getUrlResponse]
    handler: nothing clears a challenge once a hello message has been
    emitted for it. Only a [welcome] message that carries a challenge
    replaces the stored one, by the one it carries. *)
Theorem hello_keeps_challenge (h : host) (s : state) :
  _challenge (final (_hello h s)) = _challenge s
  /\ (forall t, _challenge (final (run_task h t s)) = _challenge s)
  /\ (forall response,
        _challenge (final (_on_get_url_response h response s)) = _challenge s)
  /\ (forall name handler data,
        (name, handler) ∈ command_handlers h ->
        _challenge (final (handler data s)) = _challenge s)
  /\ (forall welcome,
        _challenge (final (_on_welcome welcome s)) =
        default (_challenge s) (welcome !! "challenge")).
Proof.
  split; [|split; [|split; [|split]]]; cycle 4.
  { intros welcome. unfold _on_welcome. run.
    by destruct (welcome !! "challenge"). }
  - by apply (tasks_keep_challenge h (_challenge s) T_hello).
  - intros t. by apply (tasks_keep_challenge h (_challenge s)).
  - intros response.
    by apply (get_url_response_keeps_challenge h (_challenge s)).
  - intros name handler data Hin.
    by apply (handlers_keep_challenge h (_challenge s) name).
Qed.

Lemma hello_keeps_challenge_witness :
  _challenge (final (_on_cancel to_other registered)) = VStr "abc".
Proof.
  destruct (hello_keeps_challenge test_host registered) as (_ & _ & _ & H & _).
  apply (H "cancel" _on_cancel to_other). apply list_elem_of_here.
Defined.

(** C9, as stated, fails: after a hello message was emitted for challenge
    ["abc"], the challenge is still stored. *)
Lemma challenge_not_cleared :
  exists s' payload,
    _hello test_host registered = Ok tt s'
    /\ emitted s' = [("hello", payload)]
    /\ _challenge s' = VStr "abc".
Proof. eexists _, _. split; [reflexivity|]. split; reflexivity. Qed.

(** ** The upload-location cache *)

Lemma ensure_upload_url_cases (upload_type : string) (s : state) :
  (truthy (_snapshot_url s) = false ->
   _ensure_upload_url upload_type s = Ok false s)
  /\ (truthy (_snapshot_url s) = true ->
      _upload_location s !! KStr upload_type = None ->
      _ensure_upload_url upload_type s = Ok false (getUrl_sent upload_type s))
  /\ (truthy (_snapshot_url s) = true ->
      forall d expiry,
        _upload_location s !! KStr upload_type = Some d ->
        d !! "expires" = Some (VDatetime expiry) ->
        _ensure_upload_url upload_type s =
        if decide (now s <= expiry)
        then Ok true s
        else Ok false (getUrl_sent upload_type s)).
Proof.
  unfold _ensure_upload_url, _get_url, _get_job_id, getUrl_sent, datetime_gt.
  run.
  destruct (truthy (_snapshot_url s)); run.
  2: { split; [done|]. split; discriminate. }
  split; [discriminate|]. split.
  - intros _ Hnone. rewrite Hnone. run.
    destruct (is_printing s) eqn:Hp; run; rewrite ?Hp; reflexivity.
  - intros _ d expiry Hsome Hexp. rewrite Hsome. run. rewrite Hexp. run.
    destruct (decide (now s <= expiry)) as [Hle|Hgt].
    + assert (Hlt : Z.ltb expiry (now s) = false) by lia.
      by rewrite Hlt.
    + assert (Hlt : Z.ltb expiry (now s) = true) by lia.
      rewrite Hlt.
      destruct (is_printing s) eqn:Hp; run; rewrite ?Hp; reflexivity.
Qed.

(** The handler that writes the cache keeps it well formed, and the tasks
    do not write it. *)
Lemma cache_wf_insert (k : hkey) (response : dict) (e : Z) (s : state) :
  cache_wf s ->
  cache_wf
    (set_upload_location
       (<[k := <["expires" := VDatetime e]> response]> (_upload_location s)) s).
Proof.
  intros Hwf k' d. cbn [_upload_location set_upload_location].
  destruct (decide (k = k')) as [->|Hne].
  - rewrite lookup_insert_eq. intros [= <-]. exists e. apply lookup_insert_eq.
  - rewrite lookup_insert_ne by done. apply Hwf.
Qed.

Lemma get_url_response_keeps_cache_wf (h : host) (response : dict) :
  preserves cache_wf (_on_get_url_response h response).
Proof.
  unfold _on_get_url_response, _valid_packet. preserves_all.
  apply preserves_modify. intros s. apply cache_wf_insert.
Qed.

Lemma tasks_keep_cache_wf (h : host) (t : task) :
  preserves cache_wf (run_task h t).
Proof.
  destruct t; cbn [run_task].
  - unfold _hello. preserves_all.
  - unfold _ensure_idle_upload_url, _ensure_upload_url, _get_url, _get_job_id.
    preserves_all.
  - unfold _upload_snapshot, _ensure_upload_url, _get_url, _get_job_id.
    preserves_all.
Qed.

Lemma empty_cache_wf (s : state) : _upload_location s = ∅ -> cache_wf s.
Proof. intros Hempty k d. rewrite Hempty. by rewrite lookup_empty. Defined.

Lemma init_cache_wf (printing : bool) (clock : Z) :
  cache_wf (__init__ printing clock).
Proof. by apply empty_cache_wf. Qed.

(** C3, as the code has it. In a state whose cache is well formed (as
    [__init__] leaves it and [_on_get_url_response], its only writer, keeps
    it), [_ensure_upload_url] answers true exactly when a snapshot URL is
    configured, a descriptor is cached for the purpose and the time is not
    after its expiry ([now <= expiry], the expiry instant included).
    Without a snapshot URL it answers false and emits nothing. With one, when
    no descriptor is cached or the time is after the expiry, it emits one
    [getUrl] message with the purpose and the current job id, and answers
    false. *)
Theorem ensure_upload_url_fresh (upload_type : string) (s : state) :
  cache_wf s ->
  let fresh :=
    exists d expiry,
      _upload_location s !! KStr upload_type = Some d
      /\ d !! "expires" = Some (VDatetime expiry)
      /\ now s <= expiry in
  ((exists s', _ensure_upload_url upload_type s = Ok true s')
   <-> truthy (_snapshot_url s) = true /\ fresh)
  /\ (truthy (_snapshot_url s) = false ->
      _ensure_upload_url upload_type s = Ok false s)
  /\ (truthy (_snapshot_url s) = true -> ~ fresh ->
      _ensure_upload_url upload_type s = Ok false (getUrl_sent upload_type s)).
Proof.
  intros Hwf fresh.
  destruct (ensure_upload_url_cases upload_type s) as (Hnourl & Hnone & Hsome).
  assert (Hstale : truthy (_snapshot_url s) = true -> ~ fresh ->
            _ensure_upload_url upload_type s =
            Ok false (getUrl_sent upload_type s)).
  { intros Hurl Hnf.
    destruct (_upload_location s !! KStr upload_type) as [d|] eqn:Hd;
      [|by apply Hnone].
    destruct (Hwf _ _ Hd) as [expiry Hexp].
    rewrite (Hsome Hurl d expiry eq_refl Hexp).
    destruct (decide (now s <= expiry)) as [Hle|Hgt]; [|done].
    destruct Hnf. by exists d, expiry. }
  split; [|by split].
  split.
  - intros [s' Hrun].
    destruct (truthy (_snapshot_url s)) eqn:Hurl.
    + split; [done|].
      destruct (_upload_location s !! KStr upload_type) as [d|] eqn:Hd.
      * destruct (Hwf _ _ Hd) as [expiry Hexp].
        rewrite (Hsome eq_refl d expiry eq_refl Hexp) in Hrun.
        destruct (decide (now s <= expiry)) as [Hle|Hgt]; [|discriminate].
        by exists d, expiry.
      * rewrite (Hnone eq_refl eq_refl) in Hrun. discriminate.
    + rewrite (Hnourl eq_refl) in Hrun. discriminate.
  - intros [Hurl (d & expiry & Hd & Hexp & Hle)].
    exists s. rewrite (Hsome Hurl d expiry Hd Hexp).
    by destruct (decide (now s <= expiry)).
Qed.

Lemma at_expiry_wf : cache_wf at_expiry.
Proof.
  intros k d Hk. exists 1000000.
  change (_upload_location at_expiry)
    with ({[ KStr "idle" := {[ "expires" := VDatetime 1000000 ]} ]}
          : gmap hkey dict) in Hk.
  apply lookup_singleton_Some in Hk as [_ <-]. reflexivity.
Defined.

Lemma ensure_upload_url_fresh_witness :
  (exists s', _ensure_upload_url "idle" at_expiry = Ok true s')
  /\ _ensure_upload_url "idle" no_camera = Ok false no_camera
  /\ _ensure_upload_url "idle" registered = Ok false (getUrl_sent "idle" registered).
Proof.
  split; [|split].
  - apply (ensure_upload_url_fresh "idle" at_expiry at_expiry_wf).
    split; [reflexivity|].
    exists {[ "expires" := VDatetime 1000000 ]}, 1000000.
    split; [reflexivity|]. split; [reflexivity|]. cbn. lia.
  - apply (ensure_upload_url_fresh "idle" no_camera).
    + apply empty_cache_wf. reflexivity.
    + reflexivity.
  - apply (ensure_upload_url_fresh "idle" registered).
    + apply empty_cache_wf. reflexivity.
    + reflexivity.
    + intros (d & expiry & Hd & _). discriminate Hd.
Defined.

(** C3, as stated, fails twice: at the expiry instant the answer is true
    although the time is not strictly before the expiry; and with no snapshot
    URL and nothing cached the answer is false with no [getUrl] emitted. *)
Lemma ensure_fresh_not_strict :
  (_ensure_upload_url "idle" at_expiry = Ok true at_expiry
   /\ _upload_location at_expiry !! KStr "idle" = Some {[ "expires" := VDatetime 1000000 ]}
   /\ ~ (now at_expiry < 1000000))
  /\ (_upload_location no_camera !! KStr "idle" = None
      /\ _ensure_upload_url "idle" no_camera = Ok false no_camera
      /\ emitted no_camera = []).
Proof.
  split; [split; [reflexivity|split; [reflexivity|]]|].
  - cbn. lia.
  - split; [reflexivity|]. split; reflexivity.
Qed.

(** ** Recording a getUrlResponse *)

Lemma dict_get_type_after_expires (response : dict) (v dflt : value) :
  dict_get (<["expires" := v]> response) "type" dflt = dict_get response "type" dflt.
Proof. unfold dict_get. by rewrite lookup_insert_ne. Qed.

Lemma has_all_status (response : dict) (st : value) :
  response !! "status" = Some st -> has_all response ["status"] = true.
Proof. intros H. cbn. rewrite H. by rewrite bool_decide_true. Qed.

Lemma get_url_response_recorded (h : host) (response : dict) (s : state)
    (st : value) (seconds delta expires : Z) (k : hkey) :
  addressed s response ->
  response !! "status" = Some st ->
  eq_str st "SUCCESS" = true ->
  int h (dict_get response "expires" (VInt 0)) = inr seconds ->
  timedelta seconds = inr delta ->
  datetime_add (now s) delta = inr expires ->
  hash_key (dict_get response "type" (VStr "idle")) = Some k ->
  _on_get_url_response h response s = Ok tt (recorded response expires k s).
Proof.
  intros Ha Hst Hok Hint Hdelta Hadd Hk.
  unfold _on_get_url_response, recorded.
  unfold bind at 1. rewrite _valid_packet_run.
  destruct (decide (addressed s response)) as [_|Hn]; [|done].
  rewrite (has_all_status _ _ Hst).
  run. rewrite Hst. run. rewrite Hok. run.
  destruct (has_all response ["type"; "expires"; "url"; "maxSize"; "fields"]);
    run; rewrite Hint; run; rewrite Hdelta; run; rewrite Hadd; run;
    rewrite !dict_get_type_after_expires, Hk; run;
    destruct (eq_str (dict_get response "type" (VStr "")) "idle");
    reflexivity.
Qed.

(** C5, as the code has it. A [getUrlResponse] addressed to this device,
    with status ["SUCCESS"] and type ["idle"], whose [expires] (taken as 0
    when absent) converts to a number of seconds that yields a representable
    expiry, is stored under ["idle"] with [expires] replaced by now plus that
    many seconds, and exactly one snapshot-upload task is queued, whatever
    the cache held before. *)
Theorem idle_response_recorded (h : host) (response : dict) (s : state)
    (seconds delta expires : Z) :
  addressed s response ->
  response !! "status" = Some (VStr "SUCCESS") ->
  response !! "type" = Some (VStr "idle") ->
  int h (dict_get response "expires" (VInt 0)) = inr seconds ->
  timedelta seconds = inr delta ->
  datetime_add (now s) delta = inr expires ->
  exists s',
    _on_get_url_response h response s = Ok tt s'
    /\ expires = now s + seconds * 1000000
    /\ _upload_location s' =
       <[KStr "idle" := <["expires" := VDatetime expires]> response]>
         (_upload_location s)
    /\ _task_queue s' = (_task_queue s ++ [T_upload_snapshot])%list.
Proof.
  intros Ha Hst Hty Hint Hdelta Hadd.
  exists (recorded response expires (KStr "idle") s).
  split.
  { apply (get_url_response_recorded h response s (VStr "SUCCESS") seconds delta);
      try done.
    unfold dict_get. by rewrite Hty. }
  split.
  { unfold timedelta in Hdelta. unfold datetime_add in Hadd.
    destruct (Z.leb _ _); [|done].
    destruct (_ && _); [|done].
    injection Hdelta as <-. by injection Hadd as <-. }
  unfold recorded, dict_get. rewrite Hty. cbn [default eq_str text_eq String.eqb Ascii.eqb Bool.eqb].
  split; by destruct (has_all response _).
Qed.

Lemma idle_response_recorded_witness :
  exists s',
    _on_get_url_response test_host idle_response registered = Ok tt s'
    /\ 61000000 = now registered + 60 * 1000000
    /\ _upload_location s' =
       <[KStr "idle" := <["expires" := VDatetime 61000000]> idle_response]>
         (_upload_location registered)
    /\ _task_queue s' = (_task_queue registered ++ [T_upload_snapshot])%list.
Proof.
  apply (idle_response_recorded test_host idle_response registered 60 60000000 61000000);
    try reflexivity.
  exists "PC123". split; [reflexivity|]. split; [discriminate|reflexivity].
Defined.

(** C5, as stated, fails: a successful response of type ["idle"] addressed
    to this device whose [expires] is [None] makes the handler raise where
    it computes the expiry; no descriptor is stored and no task is queued. *)
Lemma idle_response_without_seconds :
  addressed registered bad_expires_response
  /\ bad_expires_response !! "status" = Some (VStr "SUCCESS")
  /\ bad_expires_response !! "type" = Some (VStr "idle")
  /\ exists s',
       _on_get_url_response test_host bad_expires_response registered =
       Raise TypeError s'
       /\ _upload_location s' !! KStr "idle" = None
       /\ _task_queue s' = [].
Proof.
  split.
  { exists "PC123". split; [reflexivity|]. split; [discriminate|reflexivity]. }
  split; [reflexivity|]. split; [reflexivity|].
  eexists. split; [reflexivity|]. split; reflexivity.
Qed.

(** C10, as the code has it. A [getUrlResponse] addressed to this device
    with status ["SUCCESS"] and no [type] field, whose [expires] (taken as 0
    when absent) converts to a number of seconds that yields a representable
    expiry, is stored under the key ["idle"], and no snapshot-upload task is
    queued: the queue is as before. *)
Theorem untyped_response_stored_not_queued (h : host) (response : dict)
    (s : state) (seconds delta expires : Z) :
  addressed s response ->
  response !! "status" = Some (VStr "SUCCESS") ->
  response !! "type" = None ->
  int h (dict_get response "expires" (VInt 0)) = inr seconds ->
  timedelta seconds = inr delta ->
  datetime_add (now s) delta = inr expires ->
  exists s',
    _on_get_url_response h response s = Ok tt s'
    /\ _upload_location s' !! KStr "idle" =
       Some (<["expires" := VDatetime expires]> response)
    /\ _task_queue s' = _task_queue s.
Proof.
  intros Ha Hst Hty Hint Hdelta Hadd.
  exists (recorded response expires (KStr "idle") s).
  split.
  { apply (get_url_response_recorded h response s (VStr "SUCCESS") seconds delta);
      try done.
    unfold dict_get. by rewrite Hty. }
  unfold recorded, dict_get. rewrite Hty. cbn [default eq_str text_eq String.eqb].
  split; destruct (has_all response _); run; try done; apply lookup_insert_eq.
Qed.

Lemma untyped_response_stored_not_queued_witness :
  exists s',
    _on_get_url_response test_host untyped_response registered = Ok tt s'
    /\ _upload_location s' !! KStr "idle" =
       Some (<["expires" := VDatetime 61000000]> untyped_response)
    /\ _task_queue s' = _task_queue registered.
Proof.
  apply (untyped_response_stored_not_queued test_host untyped_response registered
           60 60000000 61000000);
    try reflexivity.
  exists "PC123". split; [reflexivity|]. split; [discriminate|reflexivity].
Defined.

(** C10, as stated, fails: a successful response without [type] addressed
    to this device whose [expires] is [None] makes the handler raise where
    it computes the expiry, and nothing is stored under ["idle"]. *)
Lemma untyped_response_without_seconds :
  addressed registered untyped_bad_expires_response
  /\ untyped_bad_expires_response !! "status" = Some (VStr "SUCCESS")
  /\ untyped_bad_expires_response !! "type" = None
  /\ exists s',
       _on_get_url_response test_host untyped_bad_expires_response registered =
       Raise TypeError s'
       /\ _upload_location s' !! KStr "idle" = None.
Proof.
  split.
  { exists "PC123". split; [reflexivity|]. split; [discriminate|reflexivity]. }
  split; [reflexivity|]. split; [reflexivity|].
  eexists. split; [reflexivity|]. reflexivity.
Qed.

(** C4, as the code has it. A [getUrlResponse] addressed to this device
    with status ["SUCCESS"] that lacks one of [type], [expires], [url],
    [maxSize], [fields] is logged with a warning and then recorded like a
    complete one: when its expiry is computable ([expires] taken as 0 when
    absent) and its type (["idle"] when absent) is hashable, it is stored in
    the cache under that type, and a snapshot-upload task is queued exactly
    when a [type] field says ["idle"]. *)
Theorem incomplete_response_recorded (h : host) (response : dict) (s : state)
    (seconds delta expires : Z) (k : hkey) :
  addressed s response ->
  response !! "status" = Some (VStr "SUCCESS") ->
  has_all response ["type"; "expires"; "url"; "maxSize"; "fields"] = false ->
  int h (dict_get response "expires" (VInt 0)) = inr seconds ->
  timedelta seconds = inr delta ->
  datetime_add (now s) delta = inr expires ->
  hash_key (dict_get response "type" (VStr "idle")) = Some k ->
  exists s',
    _on_get_url_response h response s = Ok tt s'
    /\ (WARN, "getUrlResponse lacks a required property") ∈ log s'
    /\ _upload_location s' =
       <[k := <["expires" := VDatetime expires]> response]> (_upload_location s)
    /\ _task_queue s' =
       if eq_str (dict_get response "type" (VStr "")) "idle"
       then (_task_queue s ++ [T_upload_snapshot])%list
       else _task_queue s.
Proof.
  intros Ha Hst Hmiss Hint Hdelta Hadd Hk.
  exists (recorded response expires k s).
  split.
  { by apply (get_url_response_recorded h response s (VStr "SUCCESS") seconds delta). }
  unfold recorded. rewrite Hmiss.
  destruct (eq_str (dict_get response "type" (VStr "")) "idle");
    (split; [|split; reflexivity]).
  all: cbn [log queued set_task_queue logged set_log set_upload_location].
  all: rewrite !elem_of_app; left; right; apply list_elem_of_here.
Qed.

Lemma incomplete_response_recorded_witness :
  exists s',
    _on_get_url_response test_host incomplete_response registered = Ok tt s'
    /\ (WARN, "getUrlResponse lacks a required property") ∈ log s'
    /\ _upload_location s' =
       <[KStr "idle" := <["expires" := VDatetime 61000000]> incomplete_response]>
         (_upload_location registered)
    /\ _task_queue s' =
       if eq_str (dict_get incomplete_response "type" (VStr "")) "idle"
       then (_task_queue registered ++ [T_upload_snapshot])%list
       else _task_queue registered.
Proof.
  apply (incomplete_response_recorded test_host incomplete_response registered
           60 60000000 61000000 (KStr "idle"));
    try reflexivity.
  exists "PC123". split; [reflexivity|]. split; [discriminate|reflexivity].
Defined.

(** C4, as stated, fails: the response above lacks three required fields,
    the cache held nothing for ["idle"] before it, and holds the response
    after it. *)
Lemma incomplete_response_is_stored :
  has_all incomplete_response ["type"; "expires"; "url"; "maxSize"; "fields"] = false
  /\ _upload_location registered !! KStr "idle" = None
  /\ exists s',
       _on_get_url_response test_host incomplete_response registered = Ok tt s'
       /\ _upload_location s' !! KStr "idle" =
          Some (<["expires" := VDatetime 61000000]> incomplete_response)
       /\ _upload_location s' <> _upload_location registered.
Proof.
  split; [reflexivity|]. split; [reflexivity|].
  exists (recorded incomplete_response 61000000 (KStr "idle") registered).
  split; [reflexivity|]. split; [reflexivity|].
  intros Heq. apply (f_equal (fun m => m !! KStr "idle")) in Heq.
  discriminate Heq.
Qed.

(** ** The temperature handler *)

Lemma re_is_unbound (s : state) : load_global "re" s = Raise NameError s.
Proof. reflexivity. Qed.

Lemma on_temperature_in_raises (h : host) (keys : list string) (data : dict)
    (s : state) :
  addressed s data ->
  keys <> [] ->
  _on_temperature_in h keys data s = Raise NameError s.
Proof.
  intros Ha Hkeys. unfold _on_temperature_in, bind at 1.
  rewrite _valid_packet_run.
  destruct (decide (addressed s data)) as [_|Hn]; [|done].
  destruct keys as [|key keys]; [done|].
  cbn [negb for_each]. unfold _on_temperature_key, bind.
  by rewrite re_is_unbound.
Qed.

(** C8, what the code does. For a [temperature] message addressed to this
    device the handler raises [NameError] at the first key it visits, the
    module never having imported [re]: the printer receives no
    [set_temperature] call, whatever fields the message carries. *)
Theorem temperature_handler_raises (h : host) (data : dict) (s : state) :
  addressed s data ->
  _on_temperature h data s = Raise NameError s.
Proof.
  intros Ha. apply on_temperature_in_raises; [done|].
  destruct Ha as (sn & _ & _ & Hd).
  intros Hnil. apply fmap_nil_inv in Hnil.
  apply map_to_list_empty_iff in Hnil. rewrite Hnil in Hd.
  by rewrite lookup_empty in Hd.
Qed.

Lemma temperature_handler_raises_witness :
  _on_temperature test_host bed_60 registered = Raise NameError registered
  /\ printer_calls registered = [].
Proof.
  split; [|reflexivity].
  apply (temperature_handler_raises test_host bed_60 registered).
  exists "PC123". split; [reflexivity|]. split; [discriminate|reflexivity].
Defined.

Example temperature_for_other_device :
  _on_temperature test_host to_other registered = Ok tt (rejected registered)
  /\ printer_calls (rejected registered) = [].
Proof. split; reflexivity. Qed.

(** ** Print events and the heartbeat interval *)

(** C7, as the code has it. A print-started or print-resumed event sets the
    interval to 10. On a heartbeat tick with a serial number set, once the
    status message is built and emitted, the interval is reset to 60 if
    neither a cloud print nor local printing is active. A tick without a
    serial number leaves the interval as it is. *)
Theorem interval_transitions (h : host) (s : state) :
  (forall ev payload,
     ev = PRINT_STARTED \/ ev = PRINT_RESUMED ->
     on_event ev payload s = Ok tt (set_update_interval 10 s))
  /\ (forall temps status,
        truthy (_serial s) = true ->
        get_current_temperatures h s = inr temps ->
        status_of h temps (logged DEBUG "{}" s) = inr status ->
        _cloud_print s = false ->
        is_printing s = false ->
        heartbeat_status h s =
        Ok tt (set_update_interval 60
                 (sent "status" status (logged DEBUG "{}" s))))
  /\ (truthy (_serial s) = false -> heartbeat_status h s = Ok tt s).
Proof.
  split; [|split].
  - intros ev payload [-> | ->]; reflexivity.
  - intros temps status Hs Htemps Hst Hc Hp.
    unfold heartbeat_status, _current_status. run.
    rewrite Hs. run. rewrite Htemps. run.
    unfold logged, set_log in Hst. rewrite Hst. run. rewrite Hc, Hp. reflexivity.
  - intros Hs. unfold heartbeat_status. run. by rewrite Hs.
Qed.

Lemma interval_transitions_witness :
  on_event PRINT_STARTED VNone registered = Ok tt (set_update_interval 10 registered)
  /\ heartbeat_status test_host after_print =
     Ok tt (set_update_interval 60
              (sent "status" ∅ (logged DEBUG "{}" after_print)))
  /\ heartbeat_status test_host unregistered_after_print =
     Ok tt unregistered_after_print.
Proof.
  split; [|split].
  - apply (interval_transitions test_host registered). by left.
  - apply (proj1 (proj2 (interval_transitions test_host after_print))
             (VDict ∅) ∅); reflexivity.
  - apply (interval_transitions test_host unregistered_after_print). reflexivity.
Defined.

(** C7, as stated, fails: with no cloud print and no local print active, a
    whole heartbeat turn of a device without serial number leaves the
    interval at 10. *)
Lemma interval_not_reset_without_serial :
  _cloud_print unregistered_after_print = false
  /\ is_printing unregistered_after_print = false
  /\ heartbeat_iteration (heartbeat_body test_host) unregistered_after_print =
     Ok tt unregistered_after_print
  /\ _update_interval unregistered_after_print = 10.
Proof. repeat split; reflexivity. Qed.

(** ** The heartbeat loop *)

Lemma while_True_step (iteration : M unit) (fuel : nat) (s s1 : state) :
  iteration s = Ok tt s1 ->
  while_True (S fuel) iteration s = while_True fuel iteration s1.
Proof. intros Hit. cbn [while_True]. by rewrite Hit. Qed.

Lemma iteration_outcome (body : M unit) (s : state) :
  heartbeat_iteration body s =
  Ok tt
    match body s with
    | Ok _ s' => s'
    | Raise _ s' => logged WARN "polar_status exception: {}" s'
    end.
Proof.
  unfold heartbeat_iteration, try_except_Exception.
  by destruct (body s) as [[] s'|e s'].
Qed.

Lemma loop_turns (body : M unit) (n : nat) (s0 : state) :
  exists sn,
    while_True n (heartbeat_iteration body) s0 = Running sn
    /\ while_True (S n) (heartbeat_iteration body) s0 =
       Running
         match body sn with
         | Ok _ s' => s'
         | Raise _ s' => logged WARN "polar_status exception: {}" s'
         end.
Proof.
  revert s0. induction n as [|n IH]; intros s0.
  - exists s0. split; [reflexivity|].
    by rewrite (while_True_step _ 0 s0 _ (iteration_outcome body s0)).
  - pose proof (iteration_outcome body s0) as H1.
    destruct (IH match body s0 with
                 | Ok _ s' => s'
                 | Raise _ s' => logged WARN "polar_status exception: {}" s'
                 end) as (sn & Hn & HSn).
    exists sn.
    by rewrite (while_True_step _ (S n) s0 _ H1), (while_True_step _ n s0 _ H1).
Qed.

(** C6. Once [_polar_status_heartbeat] has entered its loop, no exception
    raised in a turn ends it. A turn of the loop runs the body (status build
    and emit, the queued tasks between the waits, the snapshot upload); when
    the body raises, whatever the exception and whichever statement raised
    it, the loop catches it, logs a warning and goes on from the state the
    exception left. So after any number [n] of turns the thread is running,
    and its state after [n + 1] turns is the one the body leaves from the
    state after [n] turns, with the warning added if the body raised. A
    status build that raises is such a turn. *)
Theorem heartbeat_loop_survives (h : host) (s s0 : state) :
  (run_pending_task h >> socket_wait h 5) s = Ok tt s0 ->
  _polar_status_heartbeat h 0 s = Running s0
  /\ (forall n, exists sn,
        _polar_status_heartbeat h n s = Running sn
        /\ _polar_status_heartbeat h (S n) s =
           Running
             match heartbeat_body h sn with
             | Ok _ s' => s'
             | Raise _ s' => logged WARN "polar_status exception: {}" s'
             end)
  /\ (forall s1 e s',
        heartbeat_body h s1 = Raise e s' ->
        heartbeat_iteration (heartbeat_body h) s1 =
        Ok tt (logged WARN "polar_status exception: {}" s'))
  /\ (forall s1 e,
        truthy (_serial s1) = true ->
        get_current_temperatures h s1 = inl e ->
        heartbeat_body h s1 = Raise e s1)
  /\ (forall s1 temps e,
        truthy (_serial s1) = true ->
        get_current_temperatures h s1 = inr temps ->
        status_of h temps (logged DEBUG "{}" s1) = inl e ->
        heartbeat_body h s1 = Raise e (logged DEBUG "{}" s1)).
Proof.
  intros Hpre. unfold _polar_status_heartbeat. rewrite Hpre.
  split; [reflexivity|]. split; [|split; [|split]].
  - intros n. apply loop_turns.
  - intros s1 e s' Hb. rewrite iteration_outcome. by rewrite Hb.
  - intros s1 e Hs Htemps.
    unfold heartbeat_body, heartbeat_status, _current_status. run.
    rewrite Hs. run. by rewrite Htemps.
  - intros s1 temps e Hs Htemps Hst.
    unfold heartbeat_body, heartbeat_status, _current_status. run.
    rewrite Hs. run. rewrite Htemps. run.
    unfold logged, set_log in Hst. by rewrite Hst.
Qed.

Lemma heartbeat_loop_survives_witness :
  heartbeat_body failing_host registered =
  Raise KeyError (logged DEBUG "{}" registered)
  /\ _polar_status_heartbeat failing_host 1 registered =
     Running (logged WARN "polar_status exception: {}"
                (logged DEBUG "{}" registered)).
Proof.
  split; [reflexivity|].
  destruct (heartbeat_loop_survives failing_host registered registered eq_refl)
    as (H0 & Hn & _).
  destruct (Hn 0%nat) as (sn & Hsn & HS).
  rewrite H0 in Hsn. injection Hsn as <-. exact HS.
Defined.

(** The statements before the loop are outside its [try]: a first task that
    raises ends the thread. Here the signer has no key. *)
Example first_task_is_outside_the_loop :
  _polar_status_heartbeat test_host 3 keyless =
  Died (Error "crypto.Error")
    (logged DEBUG "emit hello" (logged DEBUG "hello" (set_task_queue [] keyless))).
Proof. reflexivity. Qed.

(** The same task failing inside the loop is caught: the turn ends with the
    warning, in the state the signer's exception left. *)
Example task_failure_inside_the_loop :
  heartbeat_iteration (heartbeat_body test_host) keyless =
  Ok tt
    (logged WARN "polar_status exception: {}"
       (logged DEBUG "emit hello"
          (logged DEBUG "hello"
             (set_task_queue []
                (set_update_interval 60
                   (sent "status" ∅ (logged DEBUG "{}" keyless))))))).
Proof. reflexivity. Qed.

(** * Further properties of the code *)

(** ** Module-level helpers *)

(** X1. [has_all] answers true exactly when every listed key is in the
    dictionary; in particular it is true for no keys at all. *)
Theorem has_all_iff (dictionary : dict) (keys : list string) :
  has_all dictionary keys = true <->
  forall key, key ∈ keys -> is_Some (dictionary !! key).
Proof.
  induction keys as [|key keys IH]; cbn [has_all].
  - split; [|done]. intros _ key Hin. by apply elem_of_nil in Hin.
  - case_bool_decide as Hkey.
    + rewrite IH. split.
      * intros Hall k [->|Hin]%elem_of_cons; [done|by apply Hall].
      * intros Hall k Hin. apply Hall. by apply elem_of_cons; right.
    + split; [done|]. intros Hall. destruct Hkey. apply Hall, list_elem_of_here.
Qed.

Lemma has_all_iff_witness :
  has_all idle_response ["type"; "url"] = true
  /\ is_Some (idle_response !! "url").
Proof.
  split; [reflexivity|].
  apply (proj1 (has_all_iff idle_response ["type"; "url"]) eq_refl).
  apply list_elem_of_further, list_elem_of_here.
Defined.

Lemma str_safe_get_empty_text (keys : list string) :
  str_safe_get (VStr "") keys = VStr "".
Proof. induction keys as [|k ks IH]; [done|]. exact IH. Qed.

(** X2. [str_safe_get] follows the keys through nested dictionaries. A key
    missing from the last dictionary gives [None]; a key missing earlier, or
    any step through a value that is not a dictionary, gives the empty
    text. *)
Theorem str_safe_get_path :
  (forall d, str_safe_get d [] = d)
  /\ (forall m k ks v,
        m !! k = Some v ->
        str_safe_get (VDict m) (k :: ks) = str_safe_get v ks)
  /\ (forall m k, m !! k = None -> str_safe_get (VDict m) [k] = VNone)
  /\ (forall m k k' ks,
        m !! k = None ->
        str_safe_get (VDict m) (k :: k' :: ks) = VStr "")
  /\ (forall d k ks,
        (forall m, d <> VDict m) ->
        str_safe_get d (k :: ks) = VStr "").
Proof.
  split; [done|]. split; [|split; [|split]].
  - intros m k ks v Hk. unfold str_safe_get. cbn [fold_left]. by rewrite Hk.
  - intros m k Hk. unfold str_safe_get. cbn [fold_left]. by rewrite Hk.
  - intros m k k' ks Hk. unfold str_safe_get. cbn [fold_left]. rewrite Hk.
    apply str_safe_get_empty_text.
  - intros d k ks Hd. unfold str_safe_get. cbn [fold_left].
    destruct d; try apply str_safe_get_empty_text. by destruct (Hd d).
Qed.

Lemma str_safe_get_path_witness :
  str_safe_get (VDict {[ "job" := VDict {[ "file" := VDict ∅ ]} ]})
    ["job"; "file"; "size"] = VNone
  /\ str_safe_get (VDict {[ "job" := VDict ∅ ]}) ["job"; "file"; "size"] = VStr ""
  /\ str_safe_get (VInt 3) ["job"] = VStr "".
Proof.
  destruct str_safe_get_path as (_ & Hstep & Hlast & Hearly & Hother).
  split; [|split].
  - rewrite (Hstep _ "job" _ (VDict {[ "file" := VDict ∅ ]})) by reflexivity.
    rewrite (Hstep _ "file" _ (VDict ∅)) by reflexivity.
    apply Hlast. reflexivity.
  - rewrite (Hstep _ "job" _ (VDict ∅)) by reflexivity.
    apply Hearly. reflexivity.
  - apply Hother. discriminate.
Defined.

Lemma state_mapping_keys_NoDup :
  NoDup
    (map fst
       [ ("OPEN_SERIAL", "12"); ("DETECT_SERIAL", "12");
         ("DETECT_BAUDRATE", "12"); ("CONNECTING", "12");
         ("OPERATIONAL", "0"); ("PRINTING", "1"); ("PAUSED", "4");
         ("CLOSED", "12"); ("ERROR", "12"); ("CLOSED_WITH_ERROR", "12");
         ("TRANSFERING_FILE", "1"); ("OFFLINE", "12"); ("UNKNOWN", "12");
         ("NONE", "12") ]).
Proof. refine (bool_decide_unpack _ _). vm_compute. exact I. Qed.

Lemma state_mapping_lookup (state_id v : string) :
  state_mapping !! state_id = Some v <->
  (state_id, v) ∈
    [ ("OPEN_SERIAL", "12"); ("DETECT_SERIAL", "12");
      ("DETECT_BAUDRATE", "12"); ("CONNECTING", "12");
      ("OPERATIONAL", "0"); ("PRINTING", "1"); ("PAUSED", "4");
      ("CLOSED", "12"); ("ERROR", "12"); ("CLOSED_WITH_ERROR", "12");
      ("TRANSFERING_FILE", "1"); ("OFFLINE", "12"); ("UNKNOWN", "12");
      ("NONE", "12") ].
Proof.
  symmetry. apply (elem_of_list_to_map (M := gmap string)).
  apply state_mapping_keys_NoDup.
Qed.

Lemma state_mapping_None (state_id : string) :
  state_mapping !! state_id = None <->
  state_id ∉
    [ "OPEN_SERIAL"; "DETECT_SERIAL"; "DETECT_BAUDRATE"; "CONNECTING";
      "OPERATIONAL"; "PRINTING"; "PAUSED"; "CLOSED"; "ERROR";
      "CLOSED_WITH_ERROR"; "TRANSFERING_FILE"; "OFFLINE"; "UNKNOWN"; "NONE" ].
Proof.
  split.
  - intros Hnone Hin.
    assert (exists v, state_mapping !! state_id = Some v) as [v Hv];
      [|congruence].
    repeat (apply elem_of_cons in Hin as [->|Hin]; [eexists; reflexivity|]).
    by apply elem_of_nil in Hin.
  - intros Hout. destruct (state_mapping !! state_id) as [v|] eqn:Hl; [|done].
    destruct Hout. apply state_mapping_lookup in Hl.
    repeat (apply elem_of_cons in Hl as [[= -> ->]|Hl];
            [apply list_elem_of_In; cbn; tauto|]).
    by apply elem_of_nil in Hl.
Qed.

(** X3. [_polar_status_from_state] answers idle ["0"] for [OPERATIONAL]
    alone, serial print ["1"] for [PRINTING] and [TRANSFERING_FILE], paused
    ["4"] for [PAUSED], and error ["12"] for the ten other ids of its table;
    it never answers anything else. It raises exactly for a state id outside
    its table of fourteen, and then [KeyError]. *)
Theorem polar_status_of_state (state_id : string) :
  (forall v, _polar_status_from_state state_id = inr v ->
             v = "0" \/ v = "1" \/ v = "4" \/ v = "12")
  /\ (_polar_status_from_state state_id = inr "0" <-> state_id = "OPERATIONAL")
  /\ (_polar_status_from_state state_id = inr "1" <->
      state_id = "PRINTING" \/ state_id = "TRANSFERING_FILE")
  /\ (_polar_status_from_state state_id = inr "4" <-> state_id = "PAUSED")
  /\ (_polar_status_from_state state_id = inr "12" <->
      state_id ∈
        [ "OPEN_SERIAL"; "DETECT_SERIAL"; "DETECT_BAUDRATE"; "CONNECTING";
          "CLOSED"; "ERROR"; "CLOSED_WITH_ERROR"; "OFFLINE"; "UNKNOWN";
          "NONE" ])
  /\ (_polar_status_from_state state_id = inl KeyError <->
      state_id ∉
        [ "OPEN_SERIAL"; "DETECT_SERIAL"; "DETECT_BAUDRATE"; "CONNECTING";
          "OPERATIONAL"; "PRINTING"; "PAUSED"; "CLOSED"; "ERROR";
          "CLOSED_WITH_ERROR"; "TRANSFERING_FILE"; "OFFLINE"; "UNKNOWN";
          "NONE" ])
  /\ (forall e, _polar_status_from_state state_id = inl e -> e = KeyError).
Proof.
  assert (Hrun : forall v, _polar_status_from_state state_id = inr v <->
                           state_mapping !! state_id = Some v).
  { intros v. unfold _polar_status_from_state.
    destruct (state_mapping !! state_id); split; congruence. }
  split; [|split; [|split; [|split; [|split; [|split]]]]].
  - intros v Hv. apply Hrun, state_mapping_lookup in Hv.
    repeat (apply elem_of_cons in Hv as [[= -> ->]|Hv]; [tauto|]).
    by apply elem_of_nil in Hv.
  - rewrite Hrun, state_mapping_lookup. split.
    + intros Hv.
      repeat (apply elem_of_cons in Hv as [Hv|Hv]; [by inversion Hv|]).
      by apply elem_of_nil in Hv.
    + intros ->. apply list_elem_of_In. cbn. tauto.
  - rewrite Hrun, state_mapping_lookup. split.
    + intros Hv.
      repeat (apply elem_of_cons in Hv as [Hv|Hv]; [inversion Hv; tauto|]).
      by apply elem_of_nil in Hv.
    + intros [-> | ->]; apply list_elem_of_In; cbn; tauto.
  - rewrite Hrun, state_mapping_lookup. split.
    + intros Hv.
      repeat (apply elem_of_cons in Hv as [Hv|Hv]; [by inversion Hv|]).
      by apply elem_of_nil in Hv.
    + intros ->. apply list_elem_of_In. cbn. tauto.
  - rewrite Hrun, state_mapping_lookup. split.
    + intros Hv.
      repeat (apply elem_of_cons in Hv as [Hv|Hv];
              [inversion Hv; subst; apply list_elem_of_In; cbn; tauto|]).
      by apply elem_of_nil in Hv.
    + intros Hin.
      repeat (apply elem_of_cons in Hin as [->|Hin];
              [apply list_elem_of_In; cbn; tauto|]).
      by apply elem_of_nil in Hin.
  - rewrite <- state_mapping_None. unfold _polar_status_from_state.
    destruct (state_mapping !! state_id); split; congruence.
  - intros e. unfold _polar_status_from_state.
    destruct (state_mapping !! state_id); congruence.
Qed.

Lemma polar_status_of_state_witness :
  _polar_status_from_state "CANCELLING" = inl KeyError
  /\ _polar_status_from_state "CLOSED" = inr "12".
Proof.
  destruct (polar_status_of_state "CANCELLING") as (_ & _ & _ & _ & _ & H & _).
  destruct (polar_status_of_state "CLOSED") as (_ & _ & _ & _ & H12 & _).
  split.
  - apply H. refine (bool_decide_unpack _ _). vm_compute. exact I.
  - apply H12. do 4 apply list_elem_of_further. apply list_elem_of_here.
Defined.

(** ** The MAC identifier *)










(** Beyond 48 bits the identifier keeps the twelve highest digits only. *)
Example get_mac_13_digits :
  Util.get_mac (2 ^ 48) = "10:00:00:00:00:00"
  /\ Util.get_mac (2 ^ 44) = "10:00:00:00:00:00"
  /\ Util.get_mac 0x1A2B3C4D5E6F = "1A:2B:3C:4D:5E:6F".
Proof. repeat split; reflexivity. Qed.

(** ** Inbound commands that are addressed to this device *)

Lemma accepting_handler (data : dict) (k : M unit) (s : state) :
  addressed s data ->
  (let* ok := _valid_packet data in if negb ok then ret tt else k) s = k s.
Proof.
  intros Ha. unfold bind. rewrite _valid_packet_run.
  by destruct (decide (addressed s data)).
Qed.

(** X5. For a message addressed to this device, [cancel], [pause] and
    [resume] make exactly one call to the printer, the matching one;
    [command] forwards the [command] field, or the empty text when the
    message has none; [print] and [update] do nothing at all, not even
    log. *)
Theorem addressed_commands (s : state) (data : dict) :
  addressed s data ->
  _on_cancel data s = Ok tt (called cancel_print s)
  /\ _on_pause data s = Ok tt (called pause_print s)
  /\ _on_resume data s = Ok tt (called resume_print s)
  /\ _on_command data s =
     Ok tt (called (commands (default (VStr "") (data !! "command"))) s)
  /\ _on_print data s = Ok tt s
  /\ _on_update data s = Ok tt s.
Proof.
  intros Ha.
  unfold _on_cancel, _on_pause, _on_resume, _on_command, _on_print, _on_update.
  rewrite !(accepting_handler data _ s Ha).
  repeat split; reflexivity.
Qed.

Lemma addressed_commands_witness :
  _on_command bare_command registered =
  Ok tt (called (commands (VStr "")) registered)
  /\ printer_calls (called cancel_print registered) = [cancel_print].
Proof.
  split; [|reflexivity].
  apply (addressed_commands registered bare_command).
  exists "PC123". split; [reflexivity|]. split; [discriminate|reflexivity].
Defined.

(** ** Print events *)

(** X10. A print-cancelled event during a cloud print raises
    [AttributeError], the handler naming a [PSTATE_CANCELLING] the class
    does not declare (it declares [PSTATE_CANCELING]): the print state and
    its counter stay as they were. Without a cloud print the event does
    nothing, and neither does any event other than the three the handler
    names. *)
Theorem on_event_cancelled (s : state) (payload : value) :
  (_cloud_print s = true ->
   on_event PRINT_CANCELLED payload s = Raise AttributeError s)
  /\ (_cloud_print s = false ->
      on_event PRINT_CANCELLED payload s = Ok tt s)
  /\ (forall name, on_event (OtherEvent name) payload s = Ok tt s).
Proof.
  split; [|split].
  - intros Hc. unfold on_event. run.
    rewrite bool_decide_true by done. run. by rewrite Hc.
  - intros Hc. unfold on_event. run.
    rewrite bool_decide_true by done. run. by rewrite Hc.
  - intros name. reflexivity.
Qed.

Lemma on_event_cancelled_witness :
  on_event PRINT_CANCELLED VNone cloud_printing = Raise AttributeError cloud_printing
  /\ on_event PRINT_CANCELLED VNone registered = Ok tt registered.
Proof.
  split.
  - apply (on_event_cancelled cloud_printing VNone). reflexivity.
  - apply (on_event_cancelled registered VNone). reflexivity.
Defined.

(** ** getUrlResponse: the paths that record nothing *)

Lemma has_all_no_status (response : dict) :
  response !! "status" = None -> has_all response ["status"] = false.
Proof. intros H. cbn. rewrite H. by rewrite bool_decide_false by by intros []. Qed.

Lemma get_url_response_raise (h : host) (response : dict) (s : state)
    (e : exn) (s' : state) :
  _on_get_url_response h response s = Raise e s' ->
  _upload_location s' = _upload_location s
  /\ _task_queue s' = _task_queue s
  /\ emitted s' = emitted s
  /\ printer_calls s' = printer_calls s.
Proof.
  unfold _on_get_url_response. unfold bind at 1. rewrite _valid_packet_run.
  destruct (decide (addressed s response)) as [_|_]; [|discriminate].
  destruct (response !! "status") as [st|] eqn:Hst.
  2: { rewrite (has_all_no_status _ Hst). run. discriminate. }
  rewrite (has_all_status _ _ Hst). run. rewrite Hst. run.
  destruct (eq_str st "SUCCESS"); run; [|discriminate].
  destruct (has_all response ["type"; "expires"; "url"; "maxSize"; "fields"]); run.
  all: destruct (int h (dict_get response "expires" (VInt 0))) as [?|seconds]; run;
    [by intros [= <- <-]|].
  all: destruct (timedelta seconds) as [?|delta]; run; [by intros [= <- <-]|].
  all: destruct (datetime_add (now s) delta) as [?|expires]; run;
    [by intros [= <- <-]|].
  all: rewrite !dict_get_type_after_expires.
  all: destruct (hash_key (dict_get response "type" (VStr "idle"))); run;
    [|by intros [= <- <-]].
  all: destruct (eq_str (dict_get response "type" (VStr "")) "idle"); discriminate.
Qed.

(** X6. [_on_get_url_response] records only on its last path. A response
    for another device, one without [status], and one whose status is not
    ["SUCCESS"] are dropped with log calls only; and whenever the handler
    raises (an [expires] that is no number, an expiry out of range, an
    unhashable [type]) the cache, the queue, the emitted messages and the
    printer calls are as before. *)
Theorem get_url_response_refusals (h : host) (response : dict) (s : state) :
  (~ addressed s response ->
   _on_get_url_response h response s = Ok tt (rejected s))
  /\ (addressed s response ->
      response !! "status" = None ->
      _on_get_url_response h response s =
      Ok tt (logged WARN "getUrlResponse lacks status property"
               (logged DEBUG "getUrlResponse {}" s)))
  /\ (addressed s response ->
      forall st,
        response !! "status" = Some st ->
        eq_str st "SUCCESS" = false ->
        _on_get_url_response h response s =
        Ok tt (logged WARN "Failed to get upload url: {} {}"
                 (logged DEBUG "getUrlResponse {}" s)))
  /\ (forall e s',
        _on_get_url_response h response s = Raise e s' ->
        _upload_location s' = _upload_location s
        /\ _task_queue s' = _task_queue s
        /\ emitted s' = emitted s
        /\ printer_calls s' = printer_calls s).
Proof.
  split; [|split; [|split]].
  - intros Hn. unfold _on_get_url_response. unfold bind at 1.
    rewrite _valid_packet_run. by destruct (decide (addressed s response)).
  - intros Ha Hst. unfold _on_get_url_response. unfold bind at 1.
    rewrite _valid_packet_run.
    destruct (decide (addressed s response)); [|done].
    rewrite (has_all_no_status _ Hst). reflexivity.
  - intros Ha st Hst Hne. unfold _on_get_url_response. unfold bind at 1.
    rewrite _valid_packet_run.
    destruct (decide (addressed s response)); [|done].
    rewrite (has_all_status _ _ Hst). run. rewrite Hst. run. by rewrite Hne.
  - apply get_url_response_raise.
Qed.

Lemma get_url_response_refusals_witness :
  _on_get_url_response test_host refused_response registered =
  Ok tt (logged WARN "Failed to get upload url: {} {}"
           (logged DEBUG "getUrlResponse {}" registered))
  /\ _on_get_url_response test_host bad_expires_response registered =
     Raise TypeError (logged DEBUG "getUrlResponse {}" registered)
  /\ _upload_location (logged DEBUG "getUrlResponse {}" registered) =
     _upload_location registered.
Proof.
  destruct (get_url_response_refusals test_host refused_response registered)
    as (_ & _ & Hfail & _).
  destruct (get_url_response_refusals test_host bad_expires_response registered)
    as (_ & _ & _ & Hraise).
  split; [|split].
  - apply (Hfail ltac:(exists "PC123"; split; [reflexivity|]; split; [discriminate|reflexivity])
             (VStr "FAIL")); reflexivity.
  - reflexivity.
  - apply (Hraise TypeError). reflexivity.
Defined.

(** ** Recording, then asking *)

Lemma recorded_fields (response : dict) (expires : Z) (k : hkey) (s : state) :
  _upload_location (recorded response expires k s) =
  <[k := <["expires" := VDatetime expires]> response]> (_upload_location s)
  /\ _snapshot_url (recorded response expires k s) = _snapshot_url s
  /\ now (recorded response expires k s) = now s.
Proof.
  unfold recorded.
  destruct (has_all response _), (eq_str _ "idle"); repeat split; reflexivity.
Qed.

(** X7. Once a successful response for a purpose is recorded, asking for
    that purpose at the same instant answers fresh, without a [getUrl],
    exactly when its [expires] is not negative (a missing [expires] counts
    as 0 and is fresh for that one instant); a negative [expires] leaves the
    purpose stale and the very next question emits a new [getUrl]. *)
Theorem recorded_descriptor_is_fresh (h : host) (response : dict) (s : state)
    (purpose : string) (seconds delta expires : Z) :
  addressed s response ->
  response !! "status" = Some (VStr "SUCCESS") ->
  response !! "type" = Some (VStr purpose) ->
  int h (dict_get response "expires" (VInt 0)) = inr seconds ->
  timedelta seconds = inr delta ->
  datetime_add (now s) delta = inr expires ->
  truthy (_snapshot_url s) = true ->
  exists s',
    _on_get_url_response h response s = Ok tt s'
    /\ _ensure_upload_url purpose s' =
       if decide (0 <= seconds)
       then Ok true s'
       else Ok false (getUrl_sent purpose s').
Proof.
  intros Ha Hst Hty Hint Hdelta Hadd Hurl.
  exists (recorded response expires (KStr purpose) s).
  split.
  { apply (get_url_response_recorded h response s (VStr "SUCCESS") seconds delta);
      try done.
    unfold dict_get. by rewrite Hty. }
  destruct (recorded_fields response expires (KStr purpose) s)
    as (Hcache & Hcam & Hnow).
  destruct (ensure_upload_url_cases purpose
              (recorded response expires (KStr purpose) s)) as (_ & _ & Hsome).
  rewrite (Hsome ltac:(by rewrite Hcam)
             (<["expires" := VDatetime expires]> response) expires).
  - rewrite Hnow.
    assert (expires = now s + seconds * 1000000) as ->.
    { unfold timedelta in Hdelta. unfold datetime_add in Hadd.
      destruct (Z.leb _ _); [|done].
      destruct (_ && _); [|done].
      injection Hdelta as <-. by injection Hadd as <-. }
    destruct (decide (now s <= now s + seconds * 1000000)),
      (decide (0 <= seconds)); (reflexivity || lia).
  - rewrite Hcache. apply lookup_insert_eq.
  - apply lookup_insert_eq.
Qed.

Lemma recorded_descriptor_is_fresh_witness :
  exists s',
    _on_get_url_response test_host idle_response registered = Ok tt s'
    /\ _ensure_upload_url "idle" s' =
       if decide (0 <= 60) then Ok true s' else Ok false (getUrl_sent "idle" s').
Proof.
  apply (recorded_descriptor_is_fresh test_host idle_response registered
           "idle" 60 60000000 61000000);
    try reflexivity.
  exists "PC123". split; [reflexivity|]. split; [discriminate|reflexivity].
Defined.

(** ** What the queued tasks can do *)

Section Safe.

Context (I : state -> Prop).






Hypothesis I_log : forall l s, I s -> I (set_log l s).


End Safe.









Lemma hello_outcome (h : host) (s : state) :
  _hello h s =
  if truthy (_serial s) && truthy_value (_challenge s) then
    match crypto_sign h (key s) (_challenge s) "sha256" with
    | inr signature =>
        Ok tt
          (queued T_ensure_idle_upload_url
             (sent "hello"
                (list_to_map
                   [ ("serialNumber", value_of_text (_serial s));
                     ("signature", VStr (b64encode h signature));
                     ("MAC", VStr (get_mac h));
                     ("localIp", get_ip h);
                     ("protocol", VStr "2") ])
                (logged DEBUG "emit hello" (logged DEBUG "hello" s))))
    | inl e => Raise e (logged DEBUG "emit hello" (logged DEBUG "hello" s))
    end
  else Ok tt (logged DEBUG "skip emit hello, serial: {}" (logged DEBUG "hello" s)).
Proof.
  unfold _hello. run.
  destruct (truthy (_serial s) && truthy_value (_challenge s)); run; [|done].
  by destruct (crypto_sign h (key s) (_challenge s) "sha256").
Qed.

Lemma other_tasks_keep_queue (h : host) (q : list task) (t : task) :
  t <> T_hello -> preserves (queue_is q) (run_task h t).
Proof.
  intros Ht. destruct t; [done| |]; cbn [run_task].
  - unfold _ensure_idle_upload_url, _ensure_upload_url, _get_url, _get_job_id.
    preserves_all.
  - unfold _upload_snapshot, _ensure_upload_url, _get_url, _get_job_id.
    preserves_all.
Qed.

Lemma task_queue_effect (h : host) (t : task) (s : state) :
  _task_queue (final (run_task h t s)) = _task_queue s
  \/ (t = T_hello
      /\ _task_queue (final (run_task h t s)) =
         (_task_queue s ++ [T_ensure_idle_upload_url])%list).
Proof.
  destruct t.
  - cbn [run_task]. rewrite hello_outcome.
    destruct (truthy (_serial s) && truthy_value (_challenge s)); [|by left].
    destruct (crypto_sign h (key s) (_challenge s) "sha256"); [by left|by right].
  - left. by apply (other_tasks_keep_queue h (_task_queue s)).
  - left. by apply (other_tasks_keep_queue h (_task_queue s)).
Qed.

Lemma pending_task_final (h : host) (s : state) (t : task) (q : list task) :
  _task_queue s = t :: q ->
  final (run_pending_task h s) = final (run_task h t (set_task_queue q s)).
Proof.
  intros Hq. unfold run_pending_task, try_except, bind, queue_get_nowait.
  rewrite Hq.
  destruct (run_task h t (set_task_queue q s)) as [[] s'|e s']; [done|].
  by case_bool_decide.
Qed.

(** X9. The heartbeat's [run_pending_task] does nothing on an empty queue.
    Otherwise it takes the oldest task off the queue and calls it on the
    state without it: the outcome is the task's own, except that a
    [Queue.Empty] raised by the task itself is swallowed by the [except]
    clause meant for the empty queue. Whether the task returns or raises,
    the tasks behind it stay queued in their order and the task itself is
    not queued again; the only thing a task adds is the
    ensure-idle-upload-URL task that a hello which emitted puts at the
    end. *)
Theorem pending_task_fifo (h : host) (s : state) :
  (_task_queue s = [] -> run_pending_task h s = Ok tt s)
  /\ (forall t q,
        _task_queue s = t :: q ->
        run_pending_task h s =
        match run_task h t (set_task_queue q s) with
        | Raise Empty s' => Ok tt s'
        | outcome => outcome
        end
        /\ (_task_queue (final (run_pending_task h s)) = q
            \/ (t = T_hello
                /\ _task_queue (final (run_pending_task h s)) =
                   (q ++ [T_ensure_idle_upload_url])%list))).
Proof.
  split.
  - intros Hq. unfold run_pending_task, try_except, bind, queue_get_nowait.
    rewrite Hq. by rewrite bool_decide_true.
  - intros t q Hq. split.
    + unfold run_pending_task, try_except, bind, queue_get_nowait.
      rewrite Hq.
      destruct (run_task h t (set_task_queue q s)) as [[] s'|e s']; [done|].
      by destruct e.
    + rewrite (pending_task_final h s t q Hq).
      apply (task_queue_effect h t (set_task_queue q s)).
Qed.

Lemma pending_task_fifo_witness :
  run_pending_task test_host registered = Ok tt registered
  /\ run_pending_task test_host three_queued =
     _hello test_host
       (set_task_queue [T_upload_snapshot; T_ensure_idle_upload_url] three_queued)
  /\ _task_queue (final (run_pending_task test_host three_queued)) =
     [T_upload_snapshot; T_ensure_idle_upload_url; T_ensure_idle_upload_url].
Proof.
  destruct (proj2 (pending_task_fifo test_host three_queued) T_hello
              [T_upload_snapshot; T_ensure_idle_upload_url] eq_refl)
    as [Hrun _].
  split; [|split].
  - apply (pending_task_fifo test_host registered). reflexivity.
  - rewrite Hrun. reflexivity.
  - rewrite Hrun. reflexivity.
Defined.

(** Reading the attributes of an updated state, without unfolding the
    updates elsewhere. *)
Ltac read_state :=
  cbn [ bind gets logger modify ret raise lift socket_emit queue_put printer
        final logged sent queued called set_log set_emitted set_task_queue
        set_printer_calls set_upload_location set_update_interval
        set_challenge set_pstate set_pstate_counter
        _serial _challenge key _snapshot_url _task_queue _upload_location
        _update_interval _cloud_print _job_id _pstate _pstate_counter
        is_printing now emitted printer_calls log negb andb orb app ].

(** ** welcome, then the queued hello *)

Lemma on_welcome_outcome (welcome : dict) (s : state) :
  _on_welcome welcome s =
  match welcome !! "challenge" with
  | Some c =>
      Ok tt (queued T_hello (set_challenge c (logged DEBUG "_on_welcome: {}" s)))
  | None => Ok tt (logged DEBUG "_on_welcome: {}" s)
  end.
Proof. unfold _on_welcome. run. by destruct (welcome !! "challenge"). Qed.

Lemma pending_hello (h : host) (s : state) :
  _task_queue s = [T_hello] ->
  (forall e, crypto_sign h (key s) (_challenge s) "sha256" <> inl e) ->
  run_pending_task h s = _hello h (set_task_queue [] s).
Proof.
  intros Hq Hsign. unfold run_pending_task, try_except, bind, queue_get_nowait.
  rewrite Hq. cbn [run_task]. rewrite hello_outcome.
  cbn [_serial _challenge key set_task_queue].
  destruct (truthy (_serial s) && truthy_value (_challenge s)); [|done].
  destruct (crypto_sign h (key s) (_challenge s) "sha256") as [e|sig] eqn:Hs;
    [by destruct (Hsign e)|done].
Qed.

(** X11. A [welcome] without challenge is only logged. One with a challenge
    stores it and queues one hello task; when the heartbeat then runs that
    task on a device with a serial number (queue empty before, challenge not
    empty, signer willing), exactly one [hello] goes out, signed over the
    challenge just received, and the queue holds the ensure-idle-upload-URL
    task alone. On a device without serial number the hello task is spent
    with nothing emitted: the challenge stays stored, but no hello is
    queued any more. *)
Theorem welcome_then_hello (h : host) (welcome : dict) (s : state) :
  (welcome !! "challenge" = None ->
   _on_welcome welcome s = Ok tt (logged DEBUG "_on_welcome: {}" s))
  /\ (forall c signature,
        welcome !! "challenge" = Some c ->
        _task_queue s = [] ->
        truthy (_serial s) = true ->
        truthy_value c = true ->
        crypto_sign h (key s) c "sha256" = inr signature ->
        exists s',
          (_on_welcome welcome >> run_pending_task h) s = Ok tt s'
          /\ emitted s' =
             (emitted s ++
              [("hello",
                list_to_map
                  [ ("serialNumber", value_of_text (_serial s));
                    ("signature", VStr (b64encode h signature));
                    ("MAC", VStr (get_mac h));
                    ("localIp", get_ip h);
                    ("protocol", VStr "2") ])])%list
          /\ _task_queue s' = [T_ensure_idle_upload_url]
          /\ _challenge s' = c)
  /\ (forall c,
        welcome !! "challenge" = Some c ->
        _task_queue s = [] ->
        truthy (_serial s) = false ->
        exists s',
          (_on_welcome welcome >> run_pending_task h) s = Ok tt s'
          /\ emitted s' = emitted s
          /\ _task_queue s' = []
          /\ _challenge s' = c).
Proof.
  split; [|split].
  - intros Hc. rewrite on_welcome_outcome. by rewrite Hc.
  - intros c signature Hc Hq Hserial Htruthy Hsign.
    unfold bind at 1. rewrite on_welcome_outcome, Hc.
    rewrite pending_hello.
    + rewrite hello_outcome. read_state. rewrite Hserial, Htruthy, Hsign.
      eexists. split; [reflexivity|]. read_state. by repeat split.
    + read_state. by rewrite Hq.
    + read_state. intros e. by rewrite Hsign.
  - intros c Hc Hq Hserial.
    unfold bind at 1. rewrite on_welcome_outcome, Hc.
    unfold run_pending_task, try_except, bind, queue_get_nowait.
    read_state. rewrite Hq. cbn [app run_task]. rewrite hello_outcome.
    read_state. rewrite Hserial. cbn [andb].
    eexists. split; [reflexivity|]. read_state. by repeat split.
Qed.

Lemma welcome_then_hello_witness :
  _on_welcome ∅ unchallenged = Ok tt (logged DEBUG "_on_welcome: {}" unchallenged)
  /\ (exists s',
        (_on_welcome welcome_abc >> run_pending_task test_host) unchallenged = Ok tt s'
        /\ emitted s' =
           (emitted unchallenged ++
            [("hello",
              list_to_map
                [ ("serialNumber", value_of_text (_serial unchallenged));
                  ("signature", VStr (b64encode test_host "sig:PEM"));
                  ("MAC", VStr (get_mac test_host));
                  ("localIp", get_ip test_host);
                  ("protocol", VStr "2") ])])%list
        /\ _task_queue s' = [T_ensure_idle_upload_url]
        /\ _challenge s' = VStr "abc")
  /\ (exists s',
        (_on_welcome welcome_abc >> run_pending_task test_host)
          unregistered_after_print = Ok tt s'
        /\ emitted s' = emitted unregistered_after_print
        /\ _task_queue s' = []
        /\ _challenge s' = VStr "abc").
Proof.
  split; [|split].
  - apply (welcome_then_hello test_host ∅ unchallenged). reflexivity.
  - apply (proj1 (proj2 (welcome_then_hello test_host welcome_abc unchallenged))
             (VStr "abc") "sig:PEM"); reflexivity.
  - apply (proj2 (proj2 (welcome_then_hello test_host welcome_abc
                           unregistered_after_print)) (VStr "abc"));
      reflexivity.
Defined.

(** ** What is emitted, and by whom *)

Lemma ensure_upload_url_final (upload_type : string) (s : state) :
  final (_ensure_upload_url upload_type s) = s
  \/ final (_ensure_upload_url upload_type s) = getUrl_sent upload_type s.
Proof.
  unfold _ensure_upload_url, _get_url, _get_job_id, getUrl_sent. run.
  destruct (truthy (_snapshot_url s)); run; [|by left].
  destruct (_upload_location s !! KStr upload_type) as [d|]; run.
  - destruct (d !! "expires") as [v|]; run; [|by left].
    destruct (datetime_gt (now s) v) as [e|[]]; run; try by left.
    right. destruct (is_printing s) eqn:Hp; run; by rewrite ?Hp.
  - right. destruct (is_printing s) eqn:Hp; run; by rewrite ?Hp.
Qed.

Lemma ensure_upload_url_emits (upload_type : string) (s : state) :
  emits_at_most_one (_ensure_upload_url upload_type) s.
Proof.
  destruct (ensure_upload_url_final upload_type s) as [Hf|Hf];
    unfold emits_at_most_one; rewrite Hf; [by left|].
  right. eexists _, _. split; [reflexivity|]. reflexivity.
Qed.

Lemma upload_snapshot_emitted (h : host) (s : state) :
  emitted (final (_upload_snapshot h s)) =
  emitted (final (_ensure_upload_url "idle" (logged DEBUG "_upload_snapshot" s))).
Proof.
  unfold _upload_snapshot. unfold bind at 1 2. cbn [logger modify].
  destruct (_ensure_upload_url "idle" (logged DEBUG "_upload_snapshot" s))
    as [fresh s1|e s1]; [|done].
  cbn [final].
  assert (Hrest : forall m : M unit,
             preserves (emitted_is (emitted s1)) m ->
             emitted (final (m s1)) = emitted s1).
  { intros m Hm. by apply Hm. }
  apply Hrest. preserves_all.
Qed.

(** X13. One call of a queued task emits at most one message, and one call
    of [_job] or [_set_version] emits exactly one on a device with a serial
    number and none on a device without; every such message carries the
    local serial under [serialNumber]. *)
Theorem outbound_messages (h : host) (s : state) :
  (forall t, emits_at_most_one (run_task h t) s)
  /\ (forall job_id state_,
        emitted (final (_job job_id state_ s)) =
        if truthy (_serial s)
        then (emitted s ++
              [("job",
                list_to_map
                  [ ("serialNumber", value_of_text (_serial s));
                    ("jobId", job_id); ("state", state_) ])])%list
        else emitted s)
  /\ (forall version,
        emitted (final (_set_version version s)) =
        if truthy (_serial s)
        then (emitted s ++
              [("setVersion",
                list_to_map
                  [ ("serialNumber", value_of_text (_serial s));
                    ("runningVersion", version);
                    ("latestVersion", version) ])])%list
        else emitted s).
Proof.
  split; [|split].
  - intros [| |]; cbn [run_task].
    + unfold emits_at_most_one. rewrite hello_outcome.
      destruct (truthy (_serial s) && truthy_value (_challenge s)); [|by left].
      destruct (crypto_sign h (key s) (_challenge s) "sha256"); [by left|].
      right. eexists _, _. split; reflexivity.
    + pose proof (ensure_upload_url_emits "idle" s) as He.
      unfold emits_at_most_one, _ensure_idle_upload_url, bind in He |- *.
      by destruct (_ensure_upload_url "idle" s).
    + unfold emits_at_most_one. rewrite upload_snapshot_emitted.
      apply (ensure_upload_url_emits "idle" (logged DEBUG "_upload_snapshot" s)).
  - intros job_id state_. unfold _job. run.
    by destruct (truthy (_serial s)).
  - intros version. unfold _set_version. run.
    by destruct (truthy (_serial s)).
Qed.

Lemma outbound_messages_witness :
  emits_at_most_one (run_task test_host T_hello) registered
  /\ emitted (final (_job (VStr "123") (VStr "3") unregistered_after_print)) = [].
Proof.
  destruct (outbound_messages test_host registered) as (Htask & _ & _).
  destruct (outbound_messages test_host unregistered_after_print) as (_ & Hjob & _).
  split; [apply Htask|]. rewrite Hjob. reflexivity.
Defined.

(** ** What the inbound handlers leave alone *)

Section Inbound.

(** A property of the state that depends on neither the log, the printer
    calls, the task queue, the cache nor the challenge. *)
Context (I : state -> Prop).
Hypothesis I_log : forall l s, I s -> I (set_log l s).
Hypothesis I_calls : forall l s, I s -> I (set_printer_calls l s).
Hypothesis I_queue : forall q s, I s -> I (set_task_queue q s).
Hypothesis I_cache : forall m s, I s -> I (set_upload_location m s).
Hypothesis I_challenge : forall c s, I s -> I (set_challenge c s).

Lemma valid_packet_preserves (data : dict) : preserves I (_valid_packet data).
Proof. unfold _valid_packet. preserves_all. Qed.

Lemma command_handlers_preserve (h : host) (name : string)
    (handler : dict -> M unit) (data : dict) :
  (name, handler) ∈ command_handlers h -> preserves I (handler data).
Proof.
  intros Hin. pose proof (valid_packet_preserves data) as Hv.
  unfold command_handlers in Hin.
  repeat (apply elem_of_cons in Hin as [[= -> ->]|Hin];
          [apply preserves_bind; [exact Hv|intros ?]; preserves_all|]).
  - unfold _on_temperature_key. preserves_all.
  - by apply elem_of_nil in Hin.
Qed.

Lemma get_url_response_preserves (h : host) (response : dict) :
  preserves I (_on_get_url_response h response).
Proof.
  unfold _on_get_url_response.
  apply preserves_bind; [apply valid_packet_preserves|intros ?].
  preserves_all. apply preserves_modify. intros s. apply I_cache.
Qed.

Lemma welcome_preserves (welcome : dict) : preserves I (_on_welcome welcome).
Proof.
  unfold _on_welcome. preserves_all.
  apply preserves_modify. intros s. apply I_challenge.
Qed.

End Inbound.

(** X14. No inbound handler ever emits a message, changes the heartbeat
    interval or changes the serial number, whether it returns or raises:
    this holds for the seven command handlers, for [getUrlResponse] and for
    [welcome], on every message. *)
Theorem inbound_handlers_are_silent (h : host) (s : state) (data : dict) :
  let unchanged (s' : state) :=
    emitted s' = emitted s
    /\ _update_interval s' = _update_interval s
    /\ _serial s' = _serial s in
  unchanged (final (_on_get_url_response h data s))
  /\ unchanged (final (_on_welcome data s))
  /\ (forall name handler,
        (name, handler) ∈ command_handlers h ->
        unchanged (final (handler data s))).
Proof.
  intros unchanged. subst unchanged. cbn beta.
  split; [|split].
  - split; [|split].
    + by apply (get_url_response_preserves (emitted_is (emitted s))).
    + by apply (get_url_response_preserves (interval_is (_update_interval s))).
    + by apply (get_url_response_preserves (serial_is (_serial s))).
  - split; [|split].
    + by apply (welcome_preserves (emitted_is (emitted s))).
    + by apply (welcome_preserves (interval_is (_update_interval s))).
    + by apply (welcome_preserves (serial_is (_serial s))).
  - intros name handler Hin. split; [|split].
    + by eapply (command_handlers_preserve (emitted_is (emitted s))); [..|exact Hin|].
    + by eapply (command_handlers_preserve (interval_is (_update_interval s)));
        [..|exact Hin|].
    + by eapply (command_handlers_preserve (serial_is (_serial s))); [..|exact Hin|].
Qed.

Lemma inbound_handlers_are_silent_witness :
  emitted (final (_on_temperature test_host bed_60 registered)) = emitted registered
  /\ _update_interval (final (_on_temperature test_host bed_60 registered)) =
     _update_interval registered
  /\ _serial (final (_on_temperature test_host bed_60 registered)) =
     _serial registered.
Proof.
  destruct (inbound_handlers_are_silent test_host registered bed_60)
    as (_ & _ & H).
  apply (H "temperature" (_on_temperature test_host)).
  do 5 apply list_elem_of_further. apply list_elem_of_here.
Defined.

(** ** What the heartbeat thread keeps *)

Section Heartbeat.

(** A property that the transport's wait maintains and that depends on
    neither the log, the emitted messages, the printer calls, the queue nor
    on the interval being reset. *)
Context (h : host) (I : state -> Prop).
Hypothesis I_log : forall l s, I s -> I (set_log l s).
Hypothesis I_emitted : forall l s, I s -> I (set_emitted l s).
Hypothesis I_calls : forall l s, I s -> I (set_printer_calls l s).
Hypothesis I_queue : forall q s, I s -> I (set_task_queue q s).
Hypothesis I_reset : forall s, I s -> I (set_update_interval 60 s).
Hypothesis I_wait : forall seconds, preserves I (socket_wait h seconds).

Lemma run_task_preserves (t : task) : preserves I (run_task h t).
Proof.
  destruct t; cbn [run_task].
  - unfold _hello. preserves_all.
  - unfold _ensure_idle_upload_url, _ensure_upload_url, _get_url, _get_job_id.
    preserves_all.
  - unfold _upload_snapshot, _ensure_upload_url, _get_url, _get_job_id.
    preserves_all.
Qed.

Lemma run_pending_task_preserves : preserves I (run_pending_task h).
Proof.
  unfold run_pending_task.
  apply preserves_try_except; [|by apply preserves_ret].
  apply preserves_bind; [by apply preserves_queue_get_nowait|intros t].
  apply run_task_preserves.
Qed.

Lemma heartbeat_status_preserves : preserves I (heartbeat_status h).
Proof.
  unfold heartbeat_status.
  apply preserves_bind; [apply preserves_gets|intros serial].
  destruct (truthy serial); [|apply preserves_ret].
  apply preserves_bind.
  { unfold _current_status.
    apply preserves_bind;
      [intros s Hs; unfold lift; by destruct (get_current_temperatures h s)|].
    intros temps. apply preserves_bind; [by apply preserves_logger|intros _].
    intros s Hs. unfold lift. by destruct (status_of h temps s). }
  intros status. preserves_all.
Qed.

Lemma heartbeat_body_preserves : preserves I (heartbeat_body h).
Proof.
  unfold heartbeat_body.
  apply preserves_bind; [apply heartbeat_status_preserves|intros _].
  apply preserves_bind; [apply preserves_gets|intros n].
  apply preserves_bind.
  { apply preserves_for_each. intros _.
    apply preserves_bind; [apply run_pending_task_preserves|intros _].
    apply I_wait. }
  intros _. apply preserves_bind; [apply preserves_gets|intros serial].
  destruct (truthy serial); [|apply preserves_ret].
  apply (run_task_preserves T_upload_snapshot).
Qed.

Lemma heartbeat_iteration_preserves :
  preserves I (heartbeat_iteration (heartbeat_body h)).
Proof.
  unfold heartbeat_iteration.
  apply preserves_try_except_Exception; [apply heartbeat_body_preserves|].
  intros _. by apply preserves_logger.
Qed.

Lemma while_True_preserves (iteration : M unit) (fuel : nat) (s : state) :
  preserves I iteration -> I s -> I (thread_state (while_True fuel iteration s)).
Proof.
  intros Hit. revert s. induction fuel as [|fuel IH]; intros s Hs; cbn; [done|].
  specialize (Hit s Hs).
  destruct (iteration s) as [[] s'|e s']; cbn in Hit |- *; [by apply IH|done].
Qed.

Lemma polar_status_heartbeat_preserves (fuel : nat) (s : state) :
  I s -> I (thread_state (_polar_status_heartbeat h fuel s)).
Proof.
  intros Hs. unfold _polar_status_heartbeat.
  assert (Hpre : preserves I (run_pending_task h >> socket_wait h 5)).
  { apply preserves_bind; [apply run_pending_task_preserves|intros _].
    apply I_wait. }
  specialize (Hpre s Hs).
  destruct ((run_pending_task h >> socket_wait h 5) s) as [[] s'|e s'];
    cbn in Hpre |- *; [|done].
  apply while_True_preserves; [apply heartbeat_iteration_preserves|done].
Qed.

End Heartbeat.

(** X15. The heartbeat thread itself writes neither the stored challenge,
    the serial number nor the upload cache: if the transport's wait (the
    inbound handlers it runs) leaves them as they are, then after the
    preamble and any number of turns, whether turns raised or the thread
    died in its preamble, challenge, serial and cache are the ones it
    started with. *)
Theorem heartbeat_writes_no_identity (h : host) (fuel : nat) (s : state) :
  (forall seconds s1,
     _challenge (final (socket_wait h seconds s1)) = _challenge s1
     /\ _serial (final (socket_wait h seconds s1)) = _serial s1
     /\ _upload_location (final (socket_wait h seconds s1)) =
        _upload_location s1) ->
  _challenge (thread_state (_polar_status_heartbeat h fuel s)) = _challenge s
  /\ _serial (thread_state (_polar_status_heartbeat h fuel s)) = _serial s
  /\ _upload_location (thread_state (_polar_status_heartbeat h fuel s)) =
     _upload_location s.
Proof.
  intros Hwait.
  pose (P := fun s' : state =>
               _challenge s' = _challenge s /\ _serial s' = _serial s
               /\ _upload_location s' = _upload_location s).
  apply (polar_status_heartbeat_preserves h P); try done.
  intros seconds s1 (Hc & Hsn & Hu).
  destruct (Hwait seconds s1) as (Hc' & Hsn' & Hu').
  unfold P. by rewrite Hc', Hsn', Hu'.
Qed.

Lemma heartbeat_writes_no_identity_witness :
  _challenge (thread_state (_polar_status_heartbeat test_host 2 three_queued)) =
  _challenge three_queued
  /\ _serial (thread_state (_polar_status_heartbeat test_host 2 three_queued)) =
     _serial three_queued
  /\ _upload_location (thread_state (_polar_status_heartbeat test_host 2 three_queued)) =
     _upload_location three_queued.
Proof.
  apply (heartbeat_writes_no_identity test_host 2 three_queued).
  intros seconds s1. repeat split; reflexivity.
Defined.

(** X16. The heartbeat interval is only ever 10 or 60: starting from one of
    them, every print event, every inbound handler and, if the transport's
    wait keeps it so, the heartbeat thread over any number of turns leave it
    at 10 or 60, so the wait of a turn is never empty. *)
Theorem interval_is_10_or_60 (h : host) (s : state) :
  interval_ok s ->
  (forall ev payload, interval_ok (final (on_event ev payload s)))
  /\ (forall data,
        interval_ok (final (_on_get_url_response h data s))
        /\ interval_ok (final (_on_welcome data s))
        /\ forall name handler,
             (name, handler) ∈ command_handlers h ->
             interval_ok (final (handler data s)))
  /\ ((forall seconds, preserves interval_ok (socket_wait h seconds)) ->
      forall fuel,
        interval_ok (thread_state (_polar_status_heartbeat h fuel s))).
Proof.
  intros Hs. split; [|split].
  - intros ev payload. revert s Hs.
    change (preserves interval_ok (on_event ev payload)).
    unfold on_event, class_attribute. preserves_all.
    all: apply preserves_modify; intros s Hs; try done.
    by left.
  - intros data. split; [|split].
    + by apply (get_url_response_preserves interval_ok).
    + by apply (welcome_preserves interval_ok).
    + intros name handler Hin.
      by eapply (command_handlers_preserve interval_ok); [..|exact Hin|].
  - intros Hwait fuel.
    apply (polar_status_heartbeat_preserves h interval_ok); try done.
    intros s1 _. by right.
Qed.

Lemma interval_is_10_or_60_witness :
  interval_ok (final (on_event PRINT_STARTED VNone registered))
  /\ interval_ok (thread_state (_polar_status_heartbeat test_host 2 after_print)).
Proof.
  destruct (interval_is_10_or_60 test_host registered) as (Hev & _ & _);
    [by right|].
  destruct (interval_is_10_or_60 test_host after_print) as (_ & _ & Hbeat);
    [by left|].
  split; [apply Hev|].
  apply Hbeat. intros seconds s1 Hs1. exact Hs1.
Defined.

(** ** The register command of the API *)

(** X17. [on_api_command] hands a command to [_register] only when it is
    [register] and the data holds both [email] and [pin], and then with
    exactly those two values: the answer is [WAIT] when [_register] answers
    true and [FAIL] with "Unable to communicate with Polar Cloud" when it
    answers false. Any other command, or a register without email or
    without pin, is answered [FAIL] with "Unable to understand command"
    after one log call and nothing else. *)
Theorem api_command_guard (_register : value -> value -> M bool)
    (command : string) (data : dict) (s : state) :
  (command <> "register" \/ data !! "email" = None \/ data !! "pin" = None ->
   on_api_command _register command data s =
   Ok (list_to_map
         [ ("status", VStr "FAIL");
           ("message", VStr "Unable to understand command") ])
      (logged INFO "on_api_command {}" s))
  /\ (forall email pin,
        command = "register" ->
        data !! "email" = Some email ->
        data !! "pin" = Some pin ->
        on_api_command _register command data s =
        match _register email pin (logged INFO "on_api_command {}" s) with
        | Ok true s' =>
            Ok (list_to_map
                  [ ("status", VStr "WAIT");
                    ("message", VStr "Waiting for response from Polar Cloud") ])
               s'
        | Ok false s' =>
            Ok (list_to_map
                  [ ("status", VStr "FAIL");
                    ("message", VStr "Unable to communicate with Polar Cloud") ])
               s'
        | Raise e s' => Raise e s'
        end).
Proof.
  split.
  - intros Hbad. unfold on_api_command. run.
    assert (String.eqb command "register"
            && bool_decide (is_Some (data !! "email"))
            && bool_decide (is_Some (data !! "pin")) = false) as ->; [|done].
    destruct Hbad as [Hc|[He|Hp]].
    + apply String.eqb_neq in Hc. by rewrite Hc.
    + rewrite He. rewrite (bool_decide_false (is_Some None)) by by intros [].
      by rewrite andb_false_r.
    + rewrite Hp. rewrite (bool_decide_false (is_Some None)) by by intros [].
      by rewrite andb_false_r.
  - intros email pin -> He Hp. unfold on_api_command. run.
    rewrite He, Hp, !bool_decide_true, String.eqb_refl by done. run.
    destruct (_register email pin _) as [[] s'|e s']; reflexivity.
Qed.

Lemma api_command_guard_witness :
  on_api_command register_offline "register" {[ "email" := VStr "me@example.org" ]}
    registered =
  Ok (list_to_map
        [ ("status", VStr "FAIL");
          ("message", VStr "Unable to understand command") ])
     (logged INFO "on_api_command {}" registered)
  /\ on_api_command register_offline "register" register_form registered =
     Ok (list_to_map
           [ ("status", VStr "FAIL");
             ("message", VStr "Unable to communicate with Polar Cloud") ])
        (logged INFO "Can't register because unable to communicate with Polar Cloud"
           (logged INFO "on_api_command {}" registered)).
Proof.
  split.
  - apply (api_command_guard register_offline "register"
             {[ "email" := VStr "me@example.org" ]} registered).
    right. right. reflexivity.
  - rewrite (proj2 (api_command_guard register_offline "register" register_form
                      registered)
               (VStr "me@example.org") (VStr "1234") eq_refl eq_refl eq_refl).
    reflexivity.
Defined.
